(** * Vis1.py: the data preparation of the market dashboard

    A shallow embedding of [load_data] (src/Vis1.py, lines 22-45), the only
    part of the dashboard that computes anything: it reads the CSV into a
    pandas DataFrame, parses the dates, drops the index column and derives
    the change, direction, moving-average, calendar and name columns.

    Modelling choices.
    - A DataFrame is a finite map from column names to columns; a column is
      the list of its cells in row order (all columns of one frame share the
      row index, so row [i] of the frame is position [i] of each column).
    - float64 cells are modelled by their exact value: a rational, or one of
      the three special values +inf, -inf and NaN, with the IEEE 754 rules
      for the special values. Rounding, overflow and the sign of zero are
      not modelled. NaN is also pandas' marker for a missing value.
    - An int64 cell enters arithmetic with its exact value. On two int64
      columns numpy subtracts in int64 and wraps around; this is not
      modelled, and [no_wrap] says where it cannot happen.
    - Python exceptions are the [Raise] results of an error monad.
    - [pd.to_datetime] is a parameter of the development (it is library
      code): a function from a cell to a parsed date, or to nothing when
      the library raises. *)

From Stdlib Require Import QArith Qcanon Ascii String.
From stdpp Require Import gmap strings list fin_maps numbers.
From stdpp Require sorting pretty.

Local Open Scope string_scope.
Local Open Scope Z_scope.

(** ** Values *)

(** A float64. *)
Inductive num : Type :=
  | Fin (q : Qc)
  | PInf
  | NInf
  | NaN.

(** A pandas timestamp at day granularity; [NaT] is the missing date. *)
Inductive datetime : Type :=
  | NaT
  | Timestamp (year month day : Z).

(** The content of one cell of a column. *)
Inductive cell : Type :=
  | Str (s : string)
  | Num (x : num)
  | Int (z : Z)
  | Time (d : datetime).

Global Instance num_eq_dec : EqDecision num.
Proof. solve_decision. Defined.
Global Instance datetime_eq_dec : EqDecision datetime.
Proof. solve_decision. Defined.
Global Instance cell_eq_dec : EqDecision cell.
Proof. solve_decision. Defined.

Definition Qc100 : Qc := Qc_of_Z 100.

Definition is_finite (x : num) : bool :=
  match x with Fin _ => true | _ => false end.

(** [x - y] on float64. *)
Definition num_sub (x y : num) : num :=
  match x, y with
  | NaN, _ | _, NaN => NaN
  | Fin a, Fin b => Fin (a - b)%Qc
  | Fin _, PInf => NInf
  | Fin _, NInf => PInf
  | PInf, PInf => NaN
  | PInf, _ => PInf
  | NInf, NInf => NaN
  | NInf, _ => NInf
  end.

(** [x / y] on float64; numpy does not raise on a zero divisor. *)
Definition num_div (x y : num) : num :=
  match x, y with
  | NaN, _ | _, NaN => NaN
  | Fin a, Fin b =>
      match (b ?= 0%Qc)%Qc with
      | Eq => match (a ?= 0%Qc)%Qc with
              | Gt => PInf
              | Lt => NInf
              | Eq => NaN
              end
      | _ => Fin (a / b)%Qc
      end
  | Fin _, _ => Fin 0%Qc
  | PInf, Fin b => match (b ?= 0%Qc)%Qc with Lt => NInf | _ => PInf end
  | NInf, Fin b => match (b ?= 0%Qc)%Qc with Lt => PInf | _ => NInf end
  | _, _ => NaN
  end.

(** [x * y] on float64. *)
Definition num_mul (x y : num) : num :=
  match x, y with
  | NaN, _ | _, NaN => NaN
  | Fin a, Fin b => Fin (a * b)%Qc
  | Fin a, PInf | PInf, Fin a =>
      match (a ?= 0%Qc)%Qc with Gt => PInf | Lt => NInf | Eq => NaN end
  | Fin a, NInf | NInf, Fin a =>
      match (a ?= 0%Qc)%Qc with Gt => NInf | Lt => PInf | Eq => NaN end
  | PInf, PInf | NInf, NInf => PInf
  | PInf, NInf | NInf, PInf => NInf
  end.

(** [x > y] on float64: every comparison with NaN is false. *)
Definition num_gtb (x y : num) : bool :=
  match x, y with
  | NaN, _ | _, NaN => false
  | Fin a, Fin b => match (a ?= b)%Qc with Gt => true | _ => false end
  | PInf, PInf => false
  | PInf, _ => true
  | NInf, _ => false
  | Fin _, NInf => true
  | Fin _, PInf => false
  end.

(** ** Exceptions *)

Inductive exn : Type :=
  | KeyError (key : string)
  | ParserError (c : cell)
  | TypeError
  | IndexError.

Inductive result (A : Type) : Type :=
  | Ok (a : A)
  | Raise (e : exn).
Arguments Ok {A} a.
Arguments Raise {A} e.

Global Instance result_ret : MRet result := λ A a, Ok a.
Global Instance result_bind : MBind result := λ A B f r,
  match r with
  | Ok a => f a
  | Raise e => Raise e
  end.

Definition is_ok {A} (r : result A) : bool :=
  match r with Ok _ => true | Raise _ => false end.

(** [f] on every element, left to right, stopping at the first exception. *)
Fixpoint traverse {A B} (f : A → result B) (l : list A) : result (list B) :=
  match l with
  | [] => Ok []
  | x :: l' => y ← f x; ys ← traverse f l'; Ok (y :: ys)
  end.

(** ** Columns (pandas Series) *)

(** The float64 value of a cell in an arithmetic operation: an int64 cell
    enters with its value, a string or a date raises. *)
Definition as_num (c : cell) : result num :=
  match c with
  | Num x => Ok x
  | Int z => Ok (Fin (Qc_of_Z z))
  | Str _ | Time _ => Raise TypeError
  end.

(** An elementwise binary operator on two columns of one frame. *)
Fixpoint series_arith (op : num → num → num) (xs ys : list cell)
  : result (list cell) :=
  match xs, ys with
  | x :: xs', y :: ys' =>
      a ← as_num x; b ← as_num y;
      rest ← series_arith op xs' ys';
      Ok (Num (op a b) :: rest)
  | _, _ => Ok []
  end.

(** A column and a scalar: [series * 100]. *)
Definition series_scalar (op : num → num → num) (xs : list cell) (k : num)
  : result (list cell) :=
  traverse (λ x, a ← as_num x; Ok (Num (op a k))) xs.

(** [Series.apply(f)]. *)
Definition series_apply (f : cell → result cell) (xs : list cell)
  : result (list cell) :=
  traverse f xs.

(** [lambda x: 1 if x > 0 else 0] *)
Definition direction (c : cell) : result cell :=
  x ← as_num c;
  Ok (Int (if num_gtb x (Fin 0%Qc) then 1 else 0)).

Definition Qc_sum (l : list Qc) : Qc := foldr Qcplus 0%Qc l.

(** The values of a window when all of them are finite. *)
Definition finite_values (l : list num) : option (list Qc) :=
  mapM (λ x, match x with Fin q => Some q | _ => None end) l.

(** The mean of a full window: NaN when the window holds a NaN or an
    infinity (pandas turns infinities into NaN before it aggregates, and
    min_periods defaults to the window size). *)
Definition window_mean (window : nat) (win : list num) : num :=
  match finite_values win with
  | Some qs => Fin (Qc_sum qs / Qc_of_Z (Z.of_nat window))%Qc
  | None => NaN
  end.

(** The rolling mean at row [i]: NaN while fewer than [window] rows end at
    the row, then the mean of the [window] consecutive rows ending at it. *)
Definition rolling_at (window : nat) (xs : list num) (i : nat) : num :=
  if (i + 1 <? window)%nat then NaN
  else window_mean window (take window (drop (i + 1 - window) xs)).

(** [Series.rolling(window).mean()] *)
Definition rolling_mean (window : nat) (xs : list cell) : result (list cell) :=
  vals ← traverse as_num xs;
  Ok ((λ i, Num (rolling_at window vals i)) <$> seq 0 (length vals)).

(** [pd.to_datetime(series)], over the parser of single cells. *)
Definition to_datetime (parse : cell → option datetime) (xs : list cell)
  : result (list cell) :=
  traverse (λ c, match parse c with
                 | Some d => Ok (Time d)
                 | None => Raise (ParserError c)
                 end) xs.

(** [series.dt.year] and [series.dt.month]: NaN at a missing date. *)
Definition dt_field (field : Z → Z → Z → Z) (c : cell) : result cell :=
  match c with
  | Time (Timestamp y m d) => Ok (Int (field y m d))
  | Time NaT => Ok (Num NaN)
  | _ => Raise TypeError
  end.

Definition dt_year (xs : list cell) : result (list cell) :=
  traverse (dt_field (λ y _ _, y)) xs.

Definition dt_month (xs : list cell) : result (list cell) :=
  traverse (dt_field (λ _ m _, m)) xs.

(** [l[i]] on a Python list: a negative index counts from the end. *)
Definition py_getitem {A} (l : list A) (i : Z) : result A :=
  let n := Z.of_nat (length l) in
  let j := if i <? 0 then i + n else i in
  if (0 <=? j) && (j <? n) then
    match l !! Z.to_nat j with
    | Some x => Ok x
    | None => Raise IndexError
    end
  else Raise IndexError.

(** [calendar.month_name] *)
Definition month_name : list string :=
  [""; "January"; "February"; "March"; "April"; "May"; "June"; "July";
   "August"; "September"; "October"; "November"; "December"].

(** [lambda x: calendar.month_name[x]]: the index must be an integer. *)
Definition month_name_of (c : cell) : result cell :=
  match c with
  | Int m => s ← py_getitem month_name m; Ok (Str s)
  | _ => Raise TypeError
  end.

(** [Series.map(dict)]: a value that is not a key of the dict becomes NaN. *)
Definition series_map (d : gmap string string) (xs : list cell) : list cell :=
  (λ c, match c with
        | Str s => match d !! s with
                   | Some v => Str v
                   | None => Num NaN
                   end
        | _ => Num NaN
        end) <$> xs.

(** ** Frames (pandas DataFrame) *)

Abbreviation DataFrame := (gmap string (list cell)).

(** [df[key]] *)
Definition getitem (df : DataFrame) (key : string) : result (list cell) :=
  match df !! key with
  | Some col => Ok col
  | None => Raise (KeyError key)
  end.

(** [df[key] = col] *)
Definition setitem (key : string) (col : list cell) (df : DataFrame) : DataFrame :=
  <[key := col]> df.

(** [df.drop(columns=[key], inplace=True)]: raises when the column is
    absent ([errors] defaults to ['raise']). *)
Definition drop_column (key : string) (df : DataFrame) : result DataFrame :=
  match df !! key with
  | Some _ => Ok (delete key df)
  | None => Raise (KeyError key)
  end.

(** ** load_data *)

Definition ticker_name_mapping : gmap string string :=
  list_to_map
    [("^NYA", "New York Stock Exchange");
     ("^IXIC", "NASDAQ");
     ("^DJI", "Dow Jones");
     ("^GSPC", "S&P 500")].

Definition window_size : nat := 5.

Section Loader.

(** [pd.to_datetime] on one cell; [None] when it raises. *)
Variable parse_datetime : cell → option datetime.

(** The body of [load_data], on the frame [pd.read_csv] returns. *)
Definition load_data (csv : DataFrame) : result DataFrame :=
  let df := csv in
  date ← getitem df "Date";
  date ← to_datetime parse_datetime date;
  let df := setitem "Date" date df in
  df ← drop_column "Unnamed: 0" df;
  adj_close ← getitem df "Adj Close";
  open ← getitem df "Open";
  price_change ← series_arith num_sub adj_close open;
  let df := setitem "Price_Change" price_change df in
  price_change ← getitem df "Price_Change";
  dir ← series_apply direction price_change;
  let df := setitem "Price_Change_Direction" dir df in
  close ← getitem df "Close";
  open ← getitem df "Open";
  diff ← series_arith num_sub close open;
  open ← getitem df "Open";
  ratio ← series_arith num_div diff open;
  pct ← series_scalar num_mul ratio (Fin Qc100);
  let df := setitem "Price_Percentage_Change" pct df in
  pct ← getitem df "Price_Percentage_Change";
  dir ← series_apply direction pct;
  let df := setitem "Price_Percentage_Change_Direction" dir df in
  adj_close ← getitem df "Adj Close";
  ma ← rolling_mean window_size adj_close;
  let df := setitem "Moving_Average" ma df in
  date ← getitem df "Date";
  year ← dt_year date;
  let df := setitem "Year" year df in
  date ← getitem df "Date";
  month ← dt_month date;
  let df := setitem "Month" month df in
  month ← getitem df "Month";
  names ← series_apply month_name_of month;
  let df := setitem "Month_Name" names df in
  ticker ← getitem df "Ticker";
  let df := setitem "Ticker_Name" (series_map ticker_name_mapping ticker) df in
  Ok df.

(** [@st.cache]: the first successful call stores its frame, later calls
    return the stored frame; an exception stores nothing. *)
Definition cached_load_data (csv : DataFrame) (cache : option DataFrame)
  : result DataFrame * option DataFrame :=
  match cache with
  | Some df => (Ok df, cache)
  | None =>
      match load_data csv with
      | Ok df => (Ok df, Some df)
      | Raise e => (Raise e, None)
      end
  end.

End Loader.

(** ** Reading the result *)

(** The cell of column [key] at row [i]. *)
Definition cell_at (df : DataFrame) (key : string) (i : nat) : option cell :=
  col ← df !! key; col !! i.

(** The float64 value of column [key] at row [i]. *)
Definition num_at (df : DataFrame) (key : string) (i : nat) : option num :=
  c ← cell_at df key i;
  match as_num c with Ok x => Some x | Raise _ => None end.

(** ** A date parser for the worked examples

    It reads the ISO form YYYY-MM-DD, turns a missing cell into [NaT] and
    raises on anything else. *)
Definition digit (a : ascii) : option Z :=
  let n := Z.of_nat (nat_of_ascii a) in
  if (48 <=? n) && (n <=? 57) then Some (n - 48) else None.

Fixpoint digits (acc : Z) (l : list ascii) : option Z :=
  match l with
  | [] => Some acc
  | a :: l' => d ← digit a; digits (10 * acc + d) l'
  end.

Definition iso_datetime (c : cell) : option datetime :=
  match c with
  | Str s =>
      match list_ascii_of_string s with
      | [y1; y2; y3; y4; "-"%char; m1; m2; "-"%char; d1; d2] =>
          y ← digits 0 [y1; y2; y3; y4];
          m ← digits 0 [m1; m2];
          d ← digits 0 [d1; d2];
          if (1 <=? m) && (m <=? 12) && (1 <=? d) && (d <=? 31)
          then Some (Timestamp y m d) else None
      | _ => None
      end
  | Num NaN => Some NaT
  | _ => None
  end.

Definition price (z : Z) : cell := Num (Fin (Qc_of_Z z)).

(** The frame [pd.read_csv] returns for a file of the given rows
    (ticker, date, open, close, adjusted close), with its index column. *)
Definition market_data (rows : list (string * string * Z * Z * Z)) : DataFrame :=
  list_to_map
    [("Unnamed: 0", imap (λ i _, Int (Z.of_nat i)) rows);
     ("Ticker", (λ r, Str r.1.1.1.1) <$> rows);
     ("Date", (λ r, Str r.1.1.1.2) <$> rows);
     ("Open", (λ r, price r.1.1.2) <$> rows);
     ("High", (λ r, price (r.1.1.2 `max` r.1.2)) <$> rows);
     ("Low", (λ r, price (r.1.1.2 `min` r.1.2)) <$> rows);
     ("Close", (λ r, price r.1.2) <$> rows);
     ("Adj Close", (λ r, price r.2) <$> rows);
     ("Volume", (λ _, Int 1000) <$> rows)].

(** The row of the specification's example. *)
Definition example_csv : DataFrame :=
  market_data [("^DJI", "2020-01-02", 100, 105, 104)].

(** A row that opens below zero and closes higher. *)
Definition negative_open_csv : DataFrame :=
  market_data [("^DJI", "2020-01-02", -2, -1, -1)].

(** Rows that open at zero. *)
Definition zero_open_csv : DataFrame :=
  market_data [("^DJI", "2020-01-02", 0, 5, 5)].

Definition zero_open_flat_csv : DataFrame :=
  market_data [("^IXIC", "2020-01-02", 0, 3, 3);
               ("^IXIC", "2020-01-03", 0, 0, 0)].

(** Two tickers, interleaved; neither has five records. *)
Definition interleaved_csv : DataFrame :=
  market_data
    [("^DJI", "2020-01-02", 1, 1, 1);
     ("^GSPC", "2020-01-02", 2, 2, 2);
     ("^DJI", "2020-01-03", 3, 3, 3);
     ("^GSPC", "2020-01-03", 4, 4, 4);
     ("^DJI", "2020-01-06", 5, 5, 5)].

(** Its Ticker column, and its Date column once parsed. *)
Definition interleaved_tickers : list cell :=
  [Str "^DJI"; Str "^GSPC"; Str "^DJI"; Str "^GSPC"; Str "^DJI"].

Definition interleaved_dates : list cell :=
  [Time (Timestamp 2020 1 2); Time (Timestamp 2020 1 2);
   Time (Timestamp 2020 1 3); Time (Timestamp 2020 1 3);
   Time (Timestamp 2020 1 6)].

(** A ticker of the mapping and one that is not in it. *)
Definition unknown_ticker_csv : DataFrame :=
  market_data
    [("^GSPC", "2020-01-02", 100, 105, 104);
     ("XYZ", "2020-01-02", 10, 11, 11)].

(** A file written without the index column. *)
Definition no_index_csv : DataFrame :=
  delete "Unnamed: 0" example_csv.

(** A file with a date that does not parse. *)
Definition bad_date_csv : DataFrame :=
  market_data
    [("^DJI", "2020-01-02", 100, 105, 104);
     ("^DJI", "yesterday", 105, 106, 106)].

(** A file whose second row has no date. *)
Definition missing_date_csv : DataFrame :=
  <["Date" := [Str "2020-01-02"; Num NaN]]>
    (market_data
       [("^DJI", "2020-01-02", 100, 105, 104);
        ("^DJI", "", 105, 106, 106)]).

(** The example with another volume, high and low. *)
Definition example_csv_other_volume : DataFrame :=
  <["Volume" := [Int 7]]>
    (<["High" := [price 200]]> (<["Low" := [price 1]]> example_csv)).

(** The example read as integers: a file whose prices have no decimals
    gives int64 columns. *)
Definition example_int_csv : DataFrame :=
  <["Open" := [Int 100]]>
    (<["Close" := [Int 105]]> (<["Adj Close" := [Int 104]]> example_csv)).

(** Row [i] of [df[key1] - df[key2]] does not wrap around: when both cells
    are int64, their difference is an int64. Floats do not wrap. *)
Definition no_wrap (df : DataFrame) (key1 key2 : string) (i : nat) : Prop :=
  ∀ a b, cell_at df key1 i = Some (Int a) → cell_at df key2 i = Some (Int b) →
    -9223372036854775808 ≤ a - b ≤ 9223372036854775807.

(** The cell of the frame a load returned; nothing when it raised. *)
Definition result_cell (r : result DataFrame) (key : string) (i : nat)
  : option cell :=
  match r with
  | Ok out => cell_at out key i
  | Raise _ => None
  end.

(** The column of the frame a load returned. *)
Definition result_column (r : result DataFrame) (key : string)
  : option (list cell) :=
  match r with
  | Ok out => out !! key
  | Raise _ => None
  end.

(** The specification's reading of the moving average groups the rows by
    ticker and orders each group by date. [series_position] is the number
    of records of the ticker of row [i] that are dated before row [i]:
    the position of the row in its ticker's series. *)
Definition date_ltb (c1 c2 : cell) : bool :=
  match c1, c2 with
  | Time (Timestamp y1 m1 d1), Time (Timestamp y2 m2 d2) =>
      (y1 <? y2) || ((y1 =? y2) && ((m1 <? m2) || ((m1 =? m2) && (d1 <? d2))))
  | _, _ => false
  end.

Definition series_position (tickers dates : list cell) (i : nat) : nat :=
  match tickers !! i, dates !! i with
  | Some t, Some d =>
      length (List.filter (λ r, bool_decide (r.1 = t) && date_ltb r.2 d)
                          (zip tickers dates))
  | _, _ => 0
  end.

(** [((c - o) / o) * 100] on the values of one row. *)
Definition percent_of (c o : num) : num :=
  num_mul (num_div (num_sub c o) o) (Fin Qc100).

(** ** The shape of the input and of the result *)

(** A cell that arithmetic accepts. *)
Definition numeric (c : cell) : Prop := ∃ x, as_num c = Ok x.

(** All columns of the frame have [n] rows. *)
Definition n_rows (df : DataFrame) (n : nat) : Prop :=
  map_Forall (λ _ col, length col = n) df.

(** The columns [load_data] reads. *)
Definition required_columns : list string :=
  ["Date"; "Unnamed: 0"; "Adj Close"; "Open"; "Close"; "Ticker"].

(** A date cell that parses to a date whose month [calendar.month_name]
    can be indexed with. *)
Definition valid_date (parse : cell → option datetime) (c : cell) : Prop :=
  ∃ y m d, parse c = Some (Timestamp y m d) ∧ -13 ≤ m < 13.

(** An input that [load_data] accepts: the columns it reads are there,
    every date parses to a date, every price is a number. *)
Definition loadable (parse : cell → option datetime) (csv : DataFrame) : Prop :=
  ∃ date adj opn close,
    csv !! "Date" = Some date ∧ Forall (valid_date parse) date ∧
    is_Some (csv !! "Unnamed: 0") ∧
    csv !! "Adj Close" = Some adj ∧ Forall numeric adj ∧
    csv !! "Open" = Some opn ∧ Forall numeric opn ∧
    csv !! "Close" = Some close ∧ Forall numeric close ∧
    is_Some (csv !! "Ticker").

(** The names of the columns [load_data] adds. *)
Definition derived_columns : list string :=
  ["Price_Change"; "Price_Change_Direction"; "Price_Percentage_Change";
   "Price_Percentage_Change_Direction"; "Moving_Average"; "Year"; "Month";
   "Month_Name"; "Ticker_Name"].

(** The columns [load_data] computes. *)
Record derived : Type := Derived {
  d_date : list cell;
  d_change : list cell;
  d_change_dir : list cell;
  d_pct : list cell;
  d_pct_dir : list cell;
  d_ma : list cell;
  d_year : list cell;
  d_month : list cell;
  d_month_name : list cell;
  d_ticker_name : list cell
}.

(** The frame [load_data] returns, from the frame it read and the columns
    it computed. *)
Definition assemble (csv : DataFrame) (d : derived) : DataFrame :=
  setitem "Ticker_Name" (d_ticker_name d)
    (setitem "Month_Name" (d_month_name d)
      (setitem "Month" (d_month d)
        (setitem "Year" (d_year d)
          (setitem "Moving_Average" (d_ma d)
            (setitem "Price_Percentage_Change_Direction" (d_pct_dir d)
              (setitem "Price_Percentage_Change" (d_pct d)
                (setitem "Price_Change_Direction" (d_change_dir d)
                  (setitem "Price_Change" (d_change d)
                    (delete "Unnamed: 0"
                      (setitem "Date" (d_date d) csv)))))))))).

(** How each computed column comes from the columns of the input. *)
Definition derives (parse : cell → option datetime) (csv : DataFrame)
    (d : derived) : Prop :=
  ∃ date adj opn close ticker diff ratio,
    csv !! "Date" = Some date ∧
    to_datetime parse date = Ok (d_date d) ∧
    is_Some (csv !! "Unnamed: 0") ∧
    csv !! "Adj Close" = Some adj ∧
    csv !! "Open" = Some opn ∧
    series_arith num_sub adj opn = Ok (d_change d) ∧
    series_apply direction (d_change d) = Ok (d_change_dir d) ∧
    csv !! "Close" = Some close ∧
    series_arith num_sub close opn = Ok diff ∧
    series_arith num_div diff opn = Ok ratio ∧
    series_scalar num_mul ratio (Fin Qc100) = Ok (d_pct d) ∧
    series_apply direction (d_pct d) = Ok (d_pct_dir d) ∧
    rolling_mean window_size adj = Ok (d_ma d) ∧
    dt_year (d_date d) = Ok (d_year d) ∧
    dt_month (d_date d) = Ok (d_month d) ∧
    series_apply month_name_of (d_month d) = Ok (d_month_name d) ∧
    csv !! "Ticker" = Some ticker ∧
    d_ticker_name d = series_map ticker_name_mapping ticker.

(** ** The computed columns as a function of the input

    The columns of [derived] in the order [load_data] computes them, read
    from the input frame alone: the frame [load_data] builds on the way
    changes none of the columns it reads later. *)
Definition derive (parse : cell → option datetime) (csv : DataFrame)
  : result derived :=
  date ← getitem csv "Date";
  date ← to_datetime parse date;
  _ ← getitem csv "Unnamed: 0";
  adj ← getitem csv "Adj Close";
  opn ← getitem csv "Open";
  change ← series_arith num_sub adj opn;
  change_dir ← series_apply direction change;
  close ← getitem csv "Close";
  diff ← series_arith num_sub close opn;
  ratio ← series_arith num_div diff opn;
  pct ← series_scalar num_mul ratio (Fin Qc100);
  pct_dir ← series_apply direction pct;
  ma ← rolling_mean window_size adj;
  year ← dt_year date;
  month ← dt_month date;
  names ← series_apply month_name_of month;
  ticker ← getitem csv "Ticker";
  Ok (Derived date change change_dir pct pct_dir ma year month names
        (series_map ticker_name_mapping ticker)).

(** * The charts

    The frame [load_data] returns is filtered by the year a select box
    gives and handed to the charts. The functions below are the data
    preparation of each chart: what is drawn, not how. *)

(** [series == year] on one cell: numbers are compared by value and any
    other cell differs from an integer. *)
Definition cell_eq_int (c : cell) (z : Z) : bool :=
  match c with
  | Int z' => bool_decide (z' = z)
  | Num (Fin q) => bool_decide (q = Qc_of_Z z)
  | _ => false
  end.

(** [col[mask]]: the rows whose mask is true, in their order. *)
Fixpoint select {A} (mask : list bool) (col : list A) : list A :=
  match mask, col with
  | b :: mask', x :: col' =>
      if b then x :: select mask' col' else select mask' col'
  | _, _ => []
  end.

(** [df[df['Year'] == year]] *)
Definition filter_year (df : DataFrame) (year : Z) : result DataFrame :=
  years ← getitem df "Year";
  let mask := (λ c, cell_eq_int c year) <$> years in
  Ok (select mask <$> df).

(** [Series.unique()]: the distinct values in the order of their first
    appearance. *)
Fixpoint unique (col : list cell) : list cell :=
  match col with
  | [] => []
  | c :: col' => c :: filter (λ c', c' ≠ c) (unique col')
  end.

(** [options=df['Year'].unique()] *)
Definition year_options (df : DataFrame) : result (list cell) :=
  years ← getitem df "Year";
  Ok (unique years).

(** ** Groups *)

Definition string_of_cell (c : cell) : option string :=
  match c with
  | Str s => Some s
  | _ => None
  end.

(** The keys of [groupby(column)]: the distinct strings of the column,
    sorted; a row without a key (NaN) is in no group. The tickers of the
    program are strings: other keys are not modelled. *)
Definition group_keys (keys : list cell) : list string :=
  sorting.merge_sort String.le (remove_dups (omap string_of_cell keys)).

(** The rows of the group of one key. *)
Definition group_mask (keys : list cell) (key : string) : list bool :=
  (λ c, bool_decide (c = Str key)) <$> keys.

(** ** update_plot *)

Definition is_missing (c : cell) : bool :=
  match c with
  | Num NaN | Time NaT => true
  | _ => false
  end.

(** [value_counts()] in one group: the rows that hold the value. *)
Definition value_count (tickers values : list cell) (ticker : string)
    (label : Z) : nat :=
  length (filter (λ c, cell_eq_int c label = true)
                 (select (group_mask tickers ticker) values)).

(** The index of [value_counts().unstack()]: the tickers of the groups
    that have a value to count. *)
Definition counted_index (tickers values : list cell) : list string :=
  filter (λ t, Exists (λ c, is_missing c = false)
                      (select (group_mask tickers t) values))
         (group_keys tickers).

(** [grouped_data[label].values] after [unstack().fillna(0)]: the count
    of the value per ticker, 0 where a ticker never has it; the column
    exists when some ticker has the value. *)
Definition counted_column (tickers values : list cell) (label : Z)
  : result (list nat) :=
  let index := counted_index tickers values in
  if bool_decide (Exists (λ t, (0 < value_count tickers values t label)%nat)
                         index)
  then Ok ((λ t, value_count tickers values t label) <$> index)
  else Raise (KeyError (pretty.pretty label)).

(** The tickers and the two series of bars of [update_plot(year)]. The
    year is an option of the select box, so the filtered frame has a row. *)
Definition update_plot (df : DataFrame) (year : Z)
  : result (list string * list nat * list nat) :=
  filtered_data ← filter_year df year;
  tickers ← getitem filtered_data "Ticker";
  values ← getitem filtered_data "Price_Change_Direction";
  zeros ← counted_column tickers values 0;
  ones ← counted_column tickers values 1;
  Ok (counted_index tickers values, zeros, ones).

(** ** The Altair chart *)

(** [[calendar.month_name[i] for i in range(1, 13)]] *)
Definition months_order : result (list string) :=
  traverse (py_getitem month_name) ((λ i, Z.of_nat i) <$> seq 1 12).

(** ** create_bokeh_plot *)

Definition ticker_names : gmap string string :=
  list_to_map
    [("^NYA", "NYSE");
     ("^IXIC", "NASDAQ");
     ("^DJI", "Dow Jones");
     ("^GSPC", "S&P 500")].

(** [ticker_names.get(ticker, ticker)] *)
Definition legend_label (ticker : string) : string :=
  default ticker (ticker_names !! ticker).

(** One call of [p.line]: the legend, the colour and the data source. *)
Record glyph : Type := Glyph {
  g_legend : string;
  g_color : string;
  g_date : list cell;
  g_close : list cell
}.

Section Bokeh.

(** [Category10[10]], the palette of bokeh. *)
Variable colors : list string.

(** The body of the loop over [enumerate(df.groupby('Ticker'))]. For an
    empty palette Python raises ZeroDivisionError at [i % len(colors)];
    the palette has ten colours. *)
Definition bokeh_line (df : DataFrame) (tickers : list cell) (i : nat)
    (ticker : string) : result glyph :=
  let group := select (group_mask tickers ticker) <$> df in
  let ticker_name := legend_label ticker in
  date ← getitem group "Date";
  close ← getitem group "Adj Close";
  color ← py_getitem colors (Z.of_nat i `mod` Z.of_nat (length colors));
  Ok (Glyph ticker_name color date close).

(** The loop of [create_bokeh_plot]: one line per ticker. *)
Definition bokeh_lines (df : DataFrame) : result (list glyph) :=
  tickers ← getitem df "Ticker";
  let groups := group_keys tickers in
  traverse (λ p, bokeh_line df tickers p.1 p.2)
           (zip (seq 0 (length groups)) groups).

End Bokeh.

(** The ten colours of the palette, for the worked examples. *)
Definition category10 : list string :=
  ["#1f77b4"; "#ff7f0e"; "#2ca02c"; "#d62728"; "#9467bd";
   "#8c564b"; "#e377c2"; "#7f7f7f"; "#bcbd22"; "#17becf"].

(** Twelve tickers, one row each, and a year of profit days only. *)
Definition twelve_tickers_csv : DataFrame :=
  market_data
    ((λ t, (t, "2021-03-01", 10, 11, 11)) <$>
       ["L"; "K"; "J"; "I"; "H"; "G"; "F"; "E"; "D"; "C"; "B"; "A"]).

(** Two years: losses and profits in 2020, profits only in 2021. *)
Definition two_years_csv : DataFrame :=
  market_data
    [("^GSPC", "2020-01-02", 10, 9, 9);
     ("^DJI", "2020-01-02", 10, 11, 11);
     ("^DJI", "2020-01-03", 11, 10, 10);
     ("^GSPC", "2020-01-03", 9, 12, 12);
     ("^DJI", "2021-01-04", 10, 12, 12);
     ("^GSPC", "2021-01-04", 12, 13, 13)].

(** The frame of a load, for the worked examples of the charts. *)
Definition loaded (csv : DataFrame) : DataFrame :=
  match load_data iso_datetime csv with
  | Ok df => df
  | Raise _ => ∅
  end.

(** The number of rows the charts of one year show. *)
Definition year_rows (df : DataFrame) (year : Z) : nat :=
  match filter_year df year with
  | Ok filtered_data =>
      match filtered_data !! "Year" with
      | Some years => length years
      | None => 0%nat
      end
  | Raise _ => 0%nat
  end.

(** The year an option of the select box stands for. *)
Definition option_year (c : cell) : Z :=
  match c with
  | Int y => y
  | _ => 0
  end.

(** A column of a frame, empty when the frame does not have it. *)
Definition column (df : DataFrame) (key : string) : list cell :=
  default [] (df !! key).

(** The rows of a frame as [update_plot] reads them: the ticker, the year
    and the direction of the price change. *)
Definition bar_rows (df : DataFrame) : list (cell * cell * cell) :=
  zip (zip (column df "Ticker") (column df "Year"))
      (column df "Price_Change_Direction").

(** A column of strings, as the Ticker column of the market data is. *)
Definition string_keys (col : list cell) : Prop :=
  Forall (λ c, ∃ s, c = Str s) col.

(** The lines of the Bokeh chart of a load, for the worked examples. *)
Definition drawn (csv : DataFrame) : list glyph :=
  match bokeh_lines category10 (loaded csv) with
  | Ok lines => lines
  | Raise _ => []
  end.

(** * Properties *)

(** ** The error monad *)

Lemma bind_Ok {A B} (r : result A) (f : A → result B) (b : B) :
  r ≫= f = Ok b ↔ ∃ a, r = Ok a ∧ f a = Ok b.
Proof.
  destruct r as [a|e]; simpl; split.
  - eauto.
  - by intros (a' & [= ->] & ?).
  - done.
  - by intros (? & ? & ?).
Qed.

Lemma is_ok_true {A} (r : result A) : is_ok r = true ↔ ∃ a, r = Ok a.
Proof. destruct r; simpl; split; eauto; try done. by intros [? ?]. Qed.

(** Splits a hypothesis [x ← e; k = Ok b] into [e = Ok x] and [k = Ok b]. *)
Ltac bind_inv H :=
  let x := fresh "x" in
  let E := fresh "E" in
  apply bind_Ok in H as (x & E & H); cbv beta zeta in H.

Section Traverse.
Context {A B : Type} (f : A → result B).

Lemma traverse_Ok l k :
  traverse f l = Ok k ↔ Forall2 (λ x y, f x = Ok y) l k.
Proof.
  revert k; induction l as [|x l IH]; intros k; simpl.
  - split; [intros [= <-]; constructor | by inversion 1].
  - split.
    + intros H. bind_inv H. bind_inv H. injection H as <-.
      constructor; [done | by apply IH].
    + inversion 1 as [|? y ? k' Hy Hk]; subst.
      rewrite Hy; simpl. apply IH in Hk. by rewrite Hk.
Qed.

Lemma traverse_lookup l k i x :
  traverse f l = Ok k → l !! i = Some x → ∃ y, f x = Ok y ∧ k !! i = Some y.
Proof.
  rewrite traverse_Ok. intros H Hx.
  destruct (Forall2_lookup_l _ _ _ _ _ H Hx) as (y & ? & ?); eauto.
Qed.

Lemma traverse_length l k : traverse f l = Ok k → length k = length l.
Proof. rewrite traverse_Ok. intros H. symmetry. by eapply Forall2_length. Qed.

Lemma traverse_total l :
  Forall (λ x, ∃ y, f x = Ok y) l → ∃ k, traverse f l = Ok k.
Proof.
  induction 1 as [|x l [y Hy] _ [k Hk]]; simpl; [by eexists|].
  rewrite Hy, Hk; simpl. by eexists.
Qed.
End Traverse.

(** ** Frames *)

Lemma getitem_Ok (df : DataFrame) key col :
  getitem df key = Ok col ↔ df !! key = Some col.
Proof. unfold getitem. destruct (df !! key); naive_solver. Qed.

Lemma drop_column_Ok (df df' : DataFrame) key :
  drop_column key df = Ok df' ↔ is_Some (df !! key) ∧ df' = delete key df.
Proof.
  unfold drop_column. destruct (df !! key) eqn:E.
  - split; [intros [= <-]; eauto | by intros [_ ->]].
  - split; [done | by intros [[? ?] _]].
Qed.

Lemma getitem_setitem_eq (df : DataFrame) key col :
  getitem (setitem key col df) key = Ok col.
Proof. unfold getitem, setitem. by rewrite lookup_insert_eq. Qed.

Lemma getitem_setitem_ne (df : DataFrame) key key' col :
  key ≠ key' → getitem (setitem key col df) key' = getitem df key'.
Proof. intros. unfold getitem, setitem. by rewrite lookup_insert_ne. Qed.

Lemma getitem_delete_ne (df : DataFrame) key key' :
  key ≠ key' → getitem (delete key df) key' = getitem df key'.
Proof. intros. unfold getitem. by rewrite lookup_delete_ne. Qed.

Lemma drop_column_setitem_ne (df : DataFrame) key key' col idx :
  key ≠ key' → df !! key' = Some idx →
  drop_column key' (setitem key col df) = Ok (delete key' (setitem key col df)).
Proof.
  intros ? H. unfold drop_column, setitem. by rewrite lookup_insert_ne, H.
Qed.

Lemma Ok_bind {A B} (a : A) (f : A → result B) : Ok a ≫= f = f a.
Proof. reflexivity. Qed.

(** ** What [load_data] returns *)

Section Load.
Variable parse : cell → option datetime.

Lemma load_data_Ok csv out :
  load_data parse csv = Ok out ↔ ∃ d, derives parse csv d ∧ out = assemble csv d.
Proof.
  unfold load_data. split.
  - intros H. cbv zeta in H.
    repeat bind_inv H. injection H as <-.
    repeat match goal with
           | H : getitem _ _ = Ok _ |- _ => apply getitem_Ok in H
           | H : drop_column _ _ = Ok _ |- _ =>
               apply drop_column_Ok in H as [? ->]
           end.
    unfold setitem in *. simplify_map_eq.
    eexists (Derived _ _ _ _ _ _ _ _ _ _). split; [|reflexivity].
    unfold derives; simpl.
    eexists _, _, _, _, _, _, _. repeat split; try eassumption; reflexivity.
  - intros (d & Hd & ->). destruct d; unfold derives in Hd; simpl in Hd.
    destruct Hd as (date & adj & opn & close & ticker & diff & ratio & Hd).
    destruct Hd as (H1 & H2 & H3 & H4 & H5 & H6 & H7 & H8 & H9 & H10 & H11
                      & H12 & H13 & H14 & H15 & H16 & H17 & ->).
    destruct H3 as [idx H3].
    apply getitem_Ok in H1, H4, H5, H8, H17.
    cbv zeta. rewrite H1, Ok_bind, H2, Ok_bind.
    rewrite (drop_column_setitem_ne _ _ _ _ idx) by done. rewrite Ok_bind.
    repeat (apply bind_Ok; eexists; split;
      [ repeat first
          [ rewrite getitem_setitem_eq
          | rewrite getitem_setitem_ne by discriminate
          | rewrite getitem_delete_ne by discriminate ];
        first [eassumption | reflexivity]
      | cbv beta ]).
    reflexivity.
Qed.
End Load.

(** The columns of the returned frame. *)
Ltac frame_lookup :=
  unfold assemble, setitem;
  repeat first
    [ rewrite lookup_insert_eq
    | rewrite lookup_insert_ne by discriminate
    | rewrite lookup_delete_eq
    | rewrite lookup_delete_ne by discriminate ];
  try reflexivity.

Lemma assemble_derived csv d :
  assemble csv d !! "Date" = Some (d_date d) ∧
  assemble csv d !! "Price_Change" = Some (d_change d) ∧
  assemble csv d !! "Price_Change_Direction" = Some (d_change_dir d) ∧
  assemble csv d !! "Price_Percentage_Change" = Some (d_pct d) ∧
  assemble csv d !! "Price_Percentage_Change_Direction" = Some (d_pct_dir d) ∧
  assemble csv d !! "Moving_Average" = Some (d_ma d) ∧
  assemble csv d !! "Year" = Some (d_year d) ∧
  assemble csv d !! "Month" = Some (d_month d) ∧
  assemble csv d !! "Month_Name" = Some (d_month_name d) ∧
  assemble csv d !! "Ticker_Name" = Some (d_ticker_name d).
Proof. repeat split; frame_lookup. Qed.

Lemma assemble_index csv d : assemble csv d !! "Unnamed: 0" = None.
Proof. frame_lookup. Qed.

(** ** Columns *)

Lemma numeric_Num x : numeric (Num x).
Proof. by exists x. Qed.

Lemma series_arith_lookup op xs ys zs i x y :
  series_arith op xs ys = Ok zs → xs !! i = Some x → ys !! i = Some y →
  ∃ a b, as_num x = Ok a ∧ as_num y = Ok b ∧ zs !! i = Some (Num (op a b)).
Proof.
  revert ys zs i. induction xs as [|x' xs IH]; intros [|y' ys] zs i; try done.
  simpl. intros H. do 3 bind_inv H. injection H as <-.
  destruct i as [|i]; simpl.
  - intros [= ->] [= ->]. eauto.
  - intros. by eapply IH.
Qed.

Lemma series_arith_numeric op xs ys zs :
  series_arith op xs ys = Ok zs → length xs = length ys →
  Forall numeric xs ∧ Forall numeric ys ∧ Forall numeric zs.
Proof.
  revert ys zs. induction xs as [|x' xs IH]; intros [|y' ys] zs; simpl; try done.
  - by intros [= <-].
  - intros H [= Hlen]. do 3 bind_inv H. injection H as <-.
    destruct (IH _ _ E1 Hlen) as (? & ? & ?).
    repeat split; constructor; try done; by eexists.
Qed.

Lemma series_arith_total op xs ys :
  Forall numeric xs → Forall numeric ys →
  ∃ zs, series_arith op xs ys = Ok zs.
Proof.
  intros Hxs. revert ys. induction Hxs as [|x xs [a Ha] _ IH];
    intros ys Hys; [by eexists|].
  destruct Hys as [|y ys [b Hb] Hys]; [by eexists|].
  destruct (IH _ Hys) as [zs Hzs]. simpl. rewrite Ha, Hb; simpl.
  rewrite Hzs; simpl. by eexists.
Qed.

Lemma series_scalar_lookup op xs k zs i x :
  series_scalar op xs k = Ok zs → xs !! i = Some x →
  ∃ a, as_num x = Ok a ∧ zs !! i = Some (Num (op a k)).
Proof.
  intros H Hx. destruct (traverse_lookup _ _ _ _ _ H Hx) as (z & Hz & ?).
  bind_inv Hz. injection Hz as <-. eauto.
Qed.

Lemma series_scalar_total op xs k :
  Forall numeric xs → ∃ zs, series_scalar op xs k = Ok zs.
Proof.
  intros H. apply traverse_total. eapply Forall_impl; [|exact H].
  intros x [a Ha]. rewrite Ha. by eexists.
Qed.

Lemma series_scalar_numeric op xs k zs :
  series_scalar op xs k = Ok zs → Forall numeric zs.
Proof.
  intros H. apply traverse_Ok in H.
  induction H as [|x z xs zs Hz _ IH]; constructor; [|done].
  bind_inv Hz. injection Hz as <-. apply numeric_Num.
Qed.

Lemma direction_lookup xs zs i x :
  series_apply direction xs = Ok zs → xs !! i = Some x →
  ∃ a, as_num x = Ok a ∧
       zs !! i = Some (Int (if num_gtb a (Fin 0%Qc) then 1 else 0)).
Proof.
  intros H Hx. destruct (traverse_lookup _ _ _ _ _ H Hx) as (z & Hz & ?).
  bind_inv Hz. injection Hz as <-. eauto.
Qed.

Lemma direction_total xs :
  Forall numeric xs → ∃ zs, series_apply direction xs = Ok zs.
Proof.
  intros H. apply traverse_total. eapply Forall_impl; [|exact H].
  intros x [a Ha]. unfold direction. rewrite Ha. by eexists.
Qed.

(** ** Arithmetic on float64 values *)

Local Open Scope Qc_scope.

Lemma Qc_compare_spec (x y : Qc) :
  CompareSpec (x = y) (x < y) (y < x) (x ?= y).
Proof.
  destruct (x ?= y) eqn:E; constructor.
  - by apply Qceq_alt.
  - by apply Qclt_alt.
  - by apply Qcgt_alt.
Qed.

Lemma Qc_lt_irrefl (x : Qc) : ¬ x < x.
Proof. intros H. by apply Qclt_not_eq in H. Qed.

Lemma Qc_lt_asym (x y : Qc) : x < y → ¬ y < x.
Proof. intros H1 H2. apply (Qc_lt_irrefl x). by eapply Qclt_trans. Qed.

(** Two comparisons agree when both strict orders do. *)
Lemma Qc_compare_mono (p q r s : Qc) :
  (p < q ↔ r < s) → (q < p ↔ s < r) → (p ?= q) = (r ?= s).
Proof.
  intros H1 H2.
  destruct (Qc_compare_spec p q) as [Hpq|Hpq|Hpq];
    destruct (Qc_compare_spec r s) as [Hrs|Hrs|Hrs]; try done; subst;
    exfalso; first
      [ eapply Qc_lt_irrefl; first [by apply H1 | by apply H2]
      | eapply Qc_lt_asym; [exact Hrs|]; first [by apply H1 | by apply H2]
      | eapply Qc_lt_asym; [exact Hpq|]; first [by apply H1 | by apply H2] ].
Qed.

Lemma Qc_compare_antisym (x y : Qc) : (y ?= x) = CompOpp (x ?= y).
Proof.
  destruct (Qc_compare_spec x y) as [H|H|H];
    destruct (Qc_compare_spec y x) as [H'|H'|H']; simpl; try done; subst;
    exfalso; first
      [ by eapply Qc_lt_irrefl | by eapply Qc_lt_asym ].
Qed.

Lemma Qc_compare_sub (a b : Qc) : (a - b ?= 0) = (a ?= b).
Proof.
  apply Qc_compare_mono.
  - rewrite (Qcplus_lt_mono_r a b (- b)). by rewrite Qcplus_opp_r.
  - rewrite (Qcplus_lt_mono_r b a (- b)). by rewrite Qcplus_opp_r.
Qed.

Lemma Qc_compare_mul_pos (x z : Qc) : 0 < z → (x * z ?= 0) = (x ?= 0).
Proof.
  intros Hz. apply Qc_compare_mono.
  - rewrite (Qcmult_lt_mono_pos_r x 0 z Hz). by rewrite Qcmult_0_l.
  - rewrite (Qcmult_lt_mono_pos_r 0 x z Hz). by rewrite Qcmult_0_l.
Qed.

Lemma Qc_compare_div_pos (x z : Qc) : 0 < z → (x / z ?= 0) = (x ?= 0).
Proof. intros Hz. apply Qc_compare_mul_pos. by apply Qcinv_pos. Qed.

Lemma Qc100_pos : 0 < Qc100.
Proof. by apply Qclt_alt. Qed.

Lemma Qc_sub_0_r (a : Qc) : a - 0 = a.
Proof. apply Qcminus_right_id. Qed.

(** The sign of a difference is the order of its operands. *)
Lemma num_gtb_sub (a b : num) :
  num_gtb (num_sub a b) (Fin 0) = num_gtb a b.
Proof.
  destruct a as [a| | |], b as [b| | |]; simpl; try done.
  by rewrite Qc_compare_sub.
Qed.

(** With an opening price that is not negative, the sign of the percentage
    is the order of close and open. *)
Lemma num_gtb_percent (c o : num) :
  num_gtb (Fin 0) o = false →
  num_gtb (percent_of c o) (Fin 0) = num_gtb c o.
Proof.
  unfold percent_of.
  destruct o as [o| | |]; simpl; [|by destruct c|done|by destruct c].
  rewrite (Qc_compare_antisym o 0).
  destruct (Qc_compare_spec o 0) as [->|Ho|Ho]; simpl; [|done|]; intros _.
  - destruct c as [c| | |]; simpl; try done.
    rewrite Qc_sub_0_r.
    by destruct (Qc_compare_spec c 0) as [->|Hc|Hc].
  - destruct c as [c| | |]; simpl; try done;
      rewrite (proj1 (Qcgt_alt _ _) Ho); simpl; try done.
    rewrite (Qc_compare_mul_pos _ _ Qc100_pos).
    by rewrite (Qc_compare_div_pos _ _ Ho), Qc_compare_sub.
Qed.

(** A zero opening price never gives a finite percentage. *)
Lemma percent_of_zero_open (c : num) : is_finite (percent_of c (Fin 0)) = false.
Proof.
  unfold percent_of. destruct c as [c| | |]; simpl; try done.
  rewrite Qc_sub_0_r.
  by destruct (Qc_compare_spec c 0) as [->|Hc|Hc].
Qed.

Local Close Scope Qc_scope.

(** ** Rows *)

Lemma num_at_Some (df : DataFrame) key i v :
  num_at df key i = Some v ↔
  ∃ col c, df !! key = Some col ∧ col !! i = Some c ∧ as_num c = Ok v.
Proof.
  unfold num_at, cell_at. split.
  - destruct (df !! key) as [col|]; simpl; [|done].
    destruct (col !! i) as [c|] eqn:Hc; simpl; [|done].
    destruct (as_num c) as [x|] eqn:E; [|done].
    intros [= <-]. by exists col, c.
  - intros (col & c & -> & Hc & Hv); simpl. rewrite Hc; simpl. by rewrite Hv.
Qed.

(** Identifies two readings of the same cell. *)
Ltac same_nums :=
  repeat match goal with
         | H1 : ?e = Ok _, H2 : ?e = Ok _ |- _ =>
             rewrite H1 in H2; injection H2 as <-
         end.

(** The change columns at one row, from the prices of the row. *)
Lemma derives_change_row parse csv d i o a :
  derives parse csv d →
  num_at csv "Open" i = Some o →
  num_at csv "Adj Close" i = Some a →
  d_change d !! i = Some (Num (num_sub a o)) ∧
  d_change_dir d !! i
    = Some (Int (if num_gtb (num_sub a o) (Fin 0%Qc) then 1 else 0)).
Proof.
  intros (date & adj & opn & close & ticker & diff & ratio & Hd) Ho Ha.
  destruct Hd as (_ & _ & _ & Hadj & Hopn & Hchange & Hdir & _).
  apply num_at_Some in Ho as (? & co & ? & Hio & Hco).
  apply num_at_Some in Ha as (? & ca & ? & Hia & Hca).
  simplify_eq.
  destruct (series_arith_lookup _ _ _ _ _ _ _ Hchange Hia Hio)
    as (? & ? & ? & ? & Hch).
  destruct (direction_lookup _ _ _ _ Hdir Hch) as (? & [= <-] & Hd1).
  by same_nums.
Qed.

Lemma derives_percent_row parse csv d i o c :
  derives parse csv d →
  num_at csv "Open" i = Some o →
  num_at csv "Close" i = Some c →
  d_pct d !! i = Some (Num (percent_of c o)) ∧
  d_pct_dir d !! i
    = Some (Int (if num_gtb (percent_of c o) (Fin 0%Qc) then 1 else 0)).
Proof.
  intros (date & adj & opn & close & ticker & diff & ratio & Hd) Ho Hc.
  destruct Hd as (_ & _ & _ & _ & Hopn & _ & _ & Hclose & Hdiff
                    & Hratio & Hpct & Hpdir & _).
  apply num_at_Some in Ho as (? & co & ? & Hio & Hco).
  apply num_at_Some in Hc as (? & cc & ? & Hic & Hcc).
  simplify_eq.
  destruct (series_arith_lookup _ _ _ _ _ _ _ Hdiff Hic Hio)
    as (? & ? & ? & ? & Hdf).
  destruct (series_arith_lookup _ _ _ _ _ _ _ Hratio Hdf Hio)
    as (? & ? & [= <-] & ? & Hrt).
  destruct (series_scalar_lookup _ _ _ _ _ _ Hpct Hrt) as (? & [= <-] & Hp).
  destruct (direction_lookup _ _ _ _ Hpdir Hp) as (? & [= <-] & Hd2).
  by same_nums.
Qed.

Lemma load_data_change_row parse csv out i o a :
  load_data parse csv = Ok out →
  num_at csv "Open" i = Some o →
  num_at csv "Adj Close" i = Some a →
  cell_at out "Price_Change" i = Some (Num (num_sub a o)) ∧
  cell_at out "Price_Change_Direction" i
    = Some (Int (if num_gtb (num_sub a o) (Fin 0%Qc) then 1 else 0)).
Proof.
  intros H Ho Ha. apply load_data_Ok in H as (d & Hd & ->).
  destruct (derives_change_row _ _ _ _ _ _ Hd Ho Ha) as (H1 & H2).
  destruct (assemble_derived csv d) as (_ & E1 & E2 & _).
  unfold cell_at. by rewrite E1, E2.
Qed.

Lemma load_data_percent_row parse csv out i o c :
  load_data parse csv = Ok out →
  num_at csv "Open" i = Some o →
  num_at csv "Close" i = Some c →
  cell_at out "Price_Percentage_Change" i = Some (Num (percent_of c o)) ∧
  cell_at out "Price_Percentage_Change_Direction" i
    = Some (Int (if num_gtb (percent_of c o) (Fin 0%Qc) then 1 else 0)).
Proof.
  intros H Ho Hc. apply load_data_Ok in H as (d & Hd & ->).
  destruct (derives_percent_row _ _ _ _ _ _ Hd Ho Hc) as (H3 & H4).
  destruct (assemble_derived csv d) as (_ & _ & _ & E3 & E4 & _).
  unfold cell_at. by rewrite E3, E4.
Qed.

(** Evaluates a load on a concrete frame. *)
Ltac run_load out E :=
  lazymatch goal with
  | |- ∃ _, load_data ?p ?csv = Ok _ ∧ _ =>
      destruct (load_data p csv) as [out|?] eqn:E;
      [ exists out; split; [reflexivity|]
      | exfalso;
        assert (is_ok (load_data p csv) = true) as Hok
          by (vm_compute; reflexivity);
        rewrite E in Hok; discriminate Hok ]
  end.

Ltac decide_run := apply (bool_decide_unpack _); vm_compute; exact I.

Ltac run_cell E :=
  lazymatch goal with
  | |- ?out !! ?key = ?v =>
      change (result_column (Ok out) key = v); rewrite <- E; decide_run
  | |- cell_at ?out ?key ?i = ?v =>
      change (result_cell (Ok out) key i = v); rewrite <- E; decide_run
  end.

(** ** The change and direction columns *)

(** C4: at every row, Price_Change is Adj Close minus Open and
    Price_Percentage_Change is Close minus Open, divided by Open, times
    100; the row Open = 100, Close = 105, Adj Close = 104 yields 4, 1, 5
    and 1. *)
Theorem price_change_columns parse csv out i o c a :
  load_data parse csv = Ok out →
  num_at csv "Open" i = Some o →
  num_at csv "Close" i = Some c →
  num_at csv "Adj Close" i = Some a →
  (cell_at out "Price_Change" i = Some (Num (num_sub a o)) ∧
   cell_at out "Price_Percentage_Change" i
     = Some (Num (num_mul (num_div (num_sub c o) o) (Fin (Qc_of_Z 100))))) ∧
  (num_at example_csv "Open" 0 = Some (Fin (Qc_of_Z 100)) ∧
   num_at example_csv "Close" 0 = Some (Fin (Qc_of_Z 105)) ∧
   num_at example_csv "Adj Close" 0 = Some (Fin (Qc_of_Z 104)) ∧
   ∃ out', load_data iso_datetime example_csv = Ok out' ∧
     cell_at out' "Price_Change" 0 = Some (Num (Fin (Qc_of_Z 4))) ∧
     cell_at out' "Price_Change_Direction" 0 = Some (Int 1) ∧
     cell_at out' "Price_Percentage_Change" 0 = Some (Num (Fin (Qc_of_Z 5))) ∧
     cell_at out' "Price_Percentage_Change_Direction" 0 = Some (Int 1)).
Proof.
  intros H Ho Hc Ha.
  destruct (load_data_change_row _ _ _ _ _ _ H Ho Ha) as (H1 & _).
  destruct (load_data_percent_row _ _ _ _ _ _ H Ho Hc) as (H3 & _).
  split; [done|].
  do 3 (split; [vm_compute; reflexivity|]).
  run_load out' E. split_and!; run_cell E.
Qed.

Lemma price_change_columns_witness :
  ∃ out, load_data iso_datetime unknown_ticker_csv = Ok out ∧
    cell_at out "Price_Change" 1 = Some (Num (Fin (Qc_of_Z 1))) ∧
    cell_at out "Price_Percentage_Change" 1 = Some (Num (Fin (Qc_of_Z 10))).
Proof.
  run_load out E.
  destruct (price_change_columns iso_datetime unknown_ticker_csv out 1
              (Fin (Qc_of_Z 10)) (Fin (Qc_of_Z 11)) (Fin (Qc_of_Z 11)) E)
    as [[H1 H2] _]; try (vm_compute; reflexivity).
  rewrite H1, H2. split; decide_run.
Defined.

(** An opening price above zero is not below zero. *)
Lemma num_gtb_pos (o : num) :
  num_gtb o (Fin 0%Qc) = true → num_gtb (Fin 0%Qc) o = false.
Proof.
  destruct o as [o| | |]; simpl; try done.
  rewrite (Qc_compare_antisym o 0). by destruct (o ?= 0)%Qc.
Qed.

(** C3, as the code has it: on the rows where the subtraction does not
    wrap around, Price_Change_Direction is 1 exactly when Adj Close > Open,
    and on those of them whose Open is above zero
    Price_Percentage_Change_Direction is 1 exactly when Close > Open. *)
Theorem direction_columns parse csv out i o c a :
  load_data parse csv = Ok out →
  num_at csv "Open" i = Some o →
  num_at csv "Close" i = Some c →
  num_at csv "Adj Close" i = Some a →
  (no_wrap csv "Adj Close" "Open" i →
   cell_at out "Price_Change_Direction" i
     = Some (Int (if num_gtb a o then 1 else 0))) ∧
  (no_wrap csv "Close" "Open" i → num_gtb o (Fin 0%Qc) = true →
   cell_at out "Price_Percentage_Change_Direction" i
     = Some (Int (if num_gtb c o then 1 else 0))).
Proof.
  intros H Ho Hc Ha.
  destruct (load_data_change_row _ _ _ _ _ _ H Ho Ha) as (_ & H2).
  destruct (load_data_percent_row _ _ _ _ _ _ H Ho Hc) as (_ & H4).
  split.
  - intros _. by rewrite <- num_gtb_sub.
  - intros _ Hpos. by rewrite <- (num_gtb_percent c o (num_gtb_pos o Hpos)).
Qed.

Lemma direction_columns_witness :
  ∃ out, load_data iso_datetime example_int_csv = Ok out ∧
    cell_at out "Price_Change_Direction" 0 = Some (Int 1) ∧
    cell_at out "Price_Percentage_Change_Direction" 0 = Some (Int 1).
Proof.
  run_load out E.
  assert (∀ key1 key2 x y,
            cell_at example_int_csv key1 0 = Some (Int x) →
            key1 = "Adj Close" ∨ key1 = "Close" → key2 = "Open" →
            cell_at example_int_csv key2 0 = Some (Int y) →
            -9223372036854775808 ≤ x - y ≤ 9223372036854775807) as Hfit.
  { intros key1 key2 x y Hx [->| ->] -> Hy; vm_compute in Hx, Hy;
      injection Hx as <-; injection Hy as <-; lia. }
  destruct (direction_columns iso_datetime example_int_csv out 0
              (Fin (Qc_of_Z 100)) (Fin (Qc_of_Z 105)) (Fin (Qc_of_Z 104)) E)
    as [H1 H2]; try (vm_compute; reflexivity).
  split.
  - apply H1. intros x y Hx Hy.
    exact (Hfit "Adj Close" "Open" x y Hx (or_introl eq_refl) eq_refl Hy).
  - apply H2; [|reflexivity].
    intros x y Hx Hy.
    exact (Hfit "Close" "Open" x y Hx (or_intror eq_refl) eq_refl Hy).
Defined.

(** C3 fails below zero: the row opens at -2 and closes at -1, so Close >
    Open, and its Price_Percentage_Change_Direction is 0. *)
Lemma negative_open_direction :
  num_at negative_open_csv "Open" 0 = Some (Fin (Qc_of_Z (-2))) ∧
  num_at negative_open_csv "Close" 0 = Some (Fin (Qc_of_Z (-1))) ∧
  num_gtb (Fin (Qc_of_Z (-1))) (Fin (Qc_of_Z (-2))) = true ∧
  ∃ out, load_data iso_datetime negative_open_csv = Ok out ∧
    cell_at out "Price_Percentage_Change_Direction" 0 = Some (Int 0) ∧
    cell_at out "Price_Percentage_Change_Direction" 0 ≠ Some (Int 1).
Proof.
  do 3 (split; [vm_compute; reflexivity|]).
  run_load out E.
  assert (cell_at out "Price_Percentage_Change_Direction" 0 = Some (Int 0))
    as H by run_cell E.
  split; [done|]. by rewrite H.
Qed.

(** C5: on a row whose Open is 0, Price_Percentage_Change is kept in the
    returned frame as a value that is not finite (+inf, -inf or NaN); it is
    never 0. *)
Theorem zero_open_percentage parse csv out i c :
  load_data parse csv = Ok out →
  num_at csv "Open" i = Some (Fin 0%Qc) →
  num_at csv "Close" i = Some c →
  ∃ p, cell_at out "Price_Percentage_Change" i = Some (Num p) ∧
       is_finite p = false ∧ p ≠ Fin 0%Qc.
Proof.
  intros H Ho Hc.
  destruct (load_data_percent_row _ _ _ _ _ _ H Ho Hc) as (Hp & _).
  exists (percent_of c (Fin 0%Qc)). split; [done|].
  pose proof (percent_of_zero_open c) as Hfin. split; [done|].
  intros Heq. by rewrite Heq in Hfin.
Qed.

Lemma zero_open_percentage_witness :
  ∃ out, load_data iso_datetime zero_open_flat_csv = Ok out ∧
    ∃ p, cell_at out "Price_Percentage_Change" 1 = Some (Num p) ∧
         is_finite p = false ∧ p ≠ Fin 0%Qc.
Proof.
  run_load out E.
  apply (zero_open_percentage iso_datetime zero_open_flat_csv out 1
           (Fin (Qc_of_Z 0)) E); decide_run.
Defined.

(** C10, as the code has it: both direction columns are defined at every
    row and hold the integer 0 or 1; the direction is 0 when the change is
    NaN or -inf and 1 when it is +inf. *)
Theorem directions_are_bits parse csv out i o c a :
  load_data parse csv = Ok out →
  num_at csv "Open" i = Some o →
  num_at csv "Close" i = Some c →
  num_at csv "Adj Close" i = Some a →
  ∃ x y d1 d2,
    cell_at out "Price_Change" i = Some (Num x) ∧
    cell_at out "Price_Change_Direction" i = Some (Int d1) ∧
    cell_at out "Price_Percentage_Change" i = Some (Num y) ∧
    cell_at out "Price_Percentage_Change_Direction" i = Some (Int d2) ∧
    (d1 = 0 ∨ d1 = 1) ∧ (d2 = 0 ∨ d2 = 1) ∧
    (x = NaN ∨ x = NInf → d1 = 0) ∧ (y = NaN ∨ y = NInf → d2 = 0) ∧
    (x = PInf → d1 = 1) ∧ (y = PInf → d2 = 1).
Proof.
  intros H Ho Hc Ha.
  destruct (load_data_change_row _ _ _ _ _ _ H Ho Ha) as (H1 & H2).
  destruct (load_data_percent_row _ _ _ _ _ _ H Ho Hc) as (H3 & H4).
  eexists _, _, _, _. split_and!; try eassumption.
  - destruct (num_gtb (num_sub a o) _); auto.
  - destruct (num_gtb (percent_of c o) _); auto.
  - intros [Hx | Hx]; by rewrite Hx.
  - intros [Hy | Hy]; by rewrite Hy.
  - intros Hx; by rewrite Hx.
  - intros Hy; by rewrite Hy.
Qed.

Lemma directions_are_bits_witness :
  ∃ out, load_data iso_datetime zero_open_flat_csv = Ok out ∧
    cell_at out "Price_Percentage_Change" 1 = Some (Num NaN) ∧
    cell_at out "Price_Percentage_Change_Direction" 1 = Some (Int 0).
Proof.
  run_load out E.
  destruct (directions_are_bits iso_datetime zero_open_flat_csv out 1
              (Fin (Qc_of_Z 0)) (Fin (Qc_of_Z 0)) (Fin (Qc_of_Z 0)) E)
    as (x & y & d1 & d2 & _ & _ & Hy & Hd2 & _ & _ & _ & Hnan & _);
    try (vm_compute; reflexivity).
  assert (cell_at out "Price_Percentage_Change" 1 = Some (Num NaN)) as Hy'
    by run_cell E.
  rewrite Hy' in Hy. injection Hy as <-.
  split; [done|]. rewrite Hd2. by rewrite Hnan; [|left].
Defined.

(** C10 fails at +inf: the row opens at 0 and closes at 5, its
    Price_Percentage_Change is +inf, which is not finite, and its
    Price_Percentage_Change_Direction is 1. *)
Lemma zero_open_direction_is_one :
  num_at zero_open_csv "Open" 0 = Some (Fin (Qc_of_Z 0)) ∧
  num_at zero_open_csv "Close" 0 = Some (Fin (Qc_of_Z 5)) ∧
  ∃ out, load_data iso_datetime zero_open_csv = Ok out ∧
    cell_at out "Price_Percentage_Change" 0 = Some (Num PInf) ∧
    is_finite PInf = false ∧
    cell_at out "Price_Percentage_Change_Direction" 0 = Some (Int 1) ∧
    cell_at out "Price_Percentage_Change_Direction" 0 ≠ Some (Int 0).
Proof.
  do 2 (split; [vm_compute; reflexivity|]).
  run_load out E.
  assert (cell_at out "Price_Percentage_Change_Direction" 0 = Some (Int 1))
    as H by run_cell E.
  split; [run_cell E|]. split; [done|]. split; [done|]. by rewrite H.
Qed.

(** ** The moving average *)

Lemma rolling_mean_lookup w xs ma :
  rolling_mean w xs = Ok ma →
  ∃ vals, traverse as_num xs = Ok vals ∧
    ∀ i, (i < length xs)%nat → ma !! i = Some (Num (rolling_at w vals i)).
Proof.
  unfold rolling_mean. intros H. bind_inv H. injection H as <-.
  exists x. split; [done|]. intros i Hi.
  rewrite list_lookup_fmap, lookup_seq_lt; [done|].
  by rewrite (traverse_length _ _ _ E).
Qed.

Lemma take_drop_window {A} (l : list A) i x0 x1 x2 x3 x4 :
  l !! i = Some x0 → l !! (i + 1)%nat = Some x1 → l !! (i + 2)%nat = Some x2 →
  l !! (i + 3)%nat = Some x3 → l !! (i + 4)%nat = Some x4 →
  take 5 (drop i l) = [x0; x1; x2; x3; x4].
Proof.
  intros H0 H1 H2 H3 H4.
  rewrite (drop_S _ _ _ H0).
  replace (S i) with (i + 1)%nat by lia. rewrite (drop_S _ _ _ H1).
  replace (S (i + 1)) with (i + 2)%nat by lia. rewrite (drop_S _ _ _ H2).
  replace (S (i + 2)) with (i + 3)%nat by lia. rewrite (drop_S _ _ _ H3).
  replace (S (i + 3)) with (i + 4)%nat by lia. rewrite (drop_S _ _ _ H4).
  reflexivity.
Qed.

Lemma num_at_traverse (df : DataFrame) key col vals i v :
  df !! key = Some col → traverse as_num col = Ok vals →
  num_at df key i = Some v → vals !! i = Some v ∧ (i < length col)%nat.
Proof.
  intros Hcol Hvals Hv. apply num_at_Some in Hv as (? & c & ? & Hc & Hcv).
  simplify_eq. split; [|by eapply lookup_lt_Some].
  destruct (traverse_lookup _ _ _ _ _ Hvals Hc) as (y & Hy & ?).
  by rewrite Hcv in Hy; injection Hy as <-.
Qed.

Lemma window_mean_not_finite w win x :
  x ∈ win → is_finite x = false → window_mean w win = NaN.
Proof.
  intros Hx Hfin. unfold window_mean, finite_values.
  rewrite (mapM_None_2 _ win); [done|].
  apply Exists_exists. exists x.
  split; [first [done | by apply list_elem_of_In]|]. by destruct x.
Qed.

(** C1, as the code has it: the window runs over the rows of the whole
    table in file order. The first four rows of the table hold NaN; from
    the fifth row on, Moving_Average is the mean of Adj Close over the row
    and the four rows before it in the table, whatever their tickers and
    dates, and NaN when one of these five values is NaN or infinite. *)
Theorem moving_average_rows parse csv out :
  load_data parse csv = Ok out →
  (∀ i a, (i < 4)%nat → num_at csv "Adj Close" i = Some a →
     cell_at out "Moving_Average" i = Some (Num NaN)) ∧
  (∀ i a0 a1 a2 a3 a4,
     num_at csv "Adj Close" i = Some (Fin a0) →
     num_at csv "Adj Close" (i + 1) = Some (Fin a1) →
     num_at csv "Adj Close" (i + 2) = Some (Fin a2) →
     num_at csv "Adj Close" (i + 3) = Some (Fin a3) →
     num_at csv "Adj Close" (i + 4) = Some (Fin a4) →
     cell_at out "Moving_Average" (i + 4)
       = Some (Num (Fin ((a0 + a1 + a2 + a3 + a4) / Qc_of_Z 5)%Qc))) ∧
  (∀ i k x a, (k ≤ 4)%nat →
     num_at csv "Adj Close" (i + k) = Some x → is_finite x = false →
     num_at csv "Adj Close" (i + 4) = Some a →
     cell_at out "Moving_Average" (i + 4) = Some (Num NaN)).
Proof.
  intros H. apply load_data_Ok in H as (d & Hd & ->).
  destruct (assemble_derived csv d) as (_ & _ & _ & _ & _ & Ema & _).
  destruct Hd as (date & adj & opn & close & ticker & diff & ratio & Hd).
  destruct Hd as (_ & _ & _ & Hadj & _ & _ & _ & _ & _ & _ & _ & _ & Hma & _).
  apply rolling_mean_lookup in Hma as (vals & Hvals & Hma).
  unfold cell_at. rewrite Ema; simpl. split_and!.
  - intros i a Hi Ha.
    destruct (num_at_traverse _ _ _ _ _ _ Hadj Hvals Ha) as [_ Hlen].
    rewrite (Hma i Hlen). unfold rolling_at, window_size.
    by rewrite (proj2 (Nat.ltb_lt _ _)) by lia.
  - intros i a0 a1 a2 a3 a4 H0 H1 H2 H3 H4.
    destruct (num_at_traverse _ _ _ _ _ _ Hadj Hvals H0) as [V0 _].
    destruct (num_at_traverse _ _ _ _ _ _ Hadj Hvals H1) as [V1 _].
    destruct (num_at_traverse _ _ _ _ _ _ Hadj Hvals H2) as [V2 _].
    destruct (num_at_traverse _ _ _ _ _ _ Hadj Hvals H3) as [V3 _].
    destruct (num_at_traverse _ _ _ _ _ _ Hadj Hvals H4) as [V4 Hlen].
    rewrite (Hma _ Hlen). unfold rolling_at, window_size.
    rewrite (proj2 (Nat.ltb_ge _ _)) by lia.
    replace (i + 4 + 1 - 5)%nat with i by lia.
    rewrite (take_drop_window _ _ _ _ _ _ _ V0 V1 V2 V3 V4).
    unfold window_mean; simpl. do 3 f_equal. unfold Qc_sum; simpl.
    f_equal. ring.
  - intros i k x a Hk Hx Hfin Ha.
    destruct (num_at_traverse _ _ _ _ _ _ Hadj Hvals Hx) as [Vx _].
    destruct (num_at_traverse _ _ _ _ _ _ Hadj Hvals Ha) as [_ Hlen].
    rewrite (Hma _ Hlen). unfold rolling_at, window_size.
    rewrite (proj2 (Nat.ltb_ge _ _)) by lia.
    replace (i + 4 + 1 - 5)%nat with i by lia.
    rewrite (window_mean_not_finite _ _ x); [done | | done].
    apply list_elem_of_lookup. exists k.
    rewrite lookup_take_lt by lia. by rewrite lookup_drop.
Qed.

Lemma moving_average_rows_witness :
  ∃ out, load_data iso_datetime interleaved_csv = Ok out ∧
    cell_at out "Moving_Average" 3 = Some (Num NaN) ∧
    cell_at out "Moving_Average" 4
      = Some (Num (Fin ((Qc_of_Z 1 + Qc_of_Z 2 + Qc_of_Z 3 + Qc_of_Z 4
                         + Qc_of_Z 5) / Qc_of_Z 5)%Qc)).
Proof.
  run_load out E.
  destruct (moving_average_rows iso_datetime interleaved_csv out E)
    as (H1 & H2 & _).
  split.
  - apply (H1 3%nat (Fin (Qc_of_Z 4))); [lia | vm_compute; reflexivity].
  - apply (H2 0%nat); vm_compute; reflexivity.
Defined.

(** C1 fails on interleaved tickers: row 4 is the third record of ^DJI
    (two ^DJI records are dated before it), no ticker has five records,
    and the row has a Moving_Average, the mean 3 of the Adj Close values
    1, 2, 3, 4, 5 of both tickers. *)
Lemma interleaved_moving_average :
  ∃ out,
    load_data iso_datetime interleaved_csv = Ok out ∧
    out !! "Ticker" = Some interleaved_tickers ∧
    out !! "Date" = Some interleaved_dates ∧
    series_position interleaved_tickers interleaved_dates 4 = 2%nat ∧
    cell_at out "Moving_Average" 4 = Some (Num (Fin (Qc_of_Z 3))) ∧
    cell_at out "Moving_Average" 4 ≠ Some (Num NaN).
Proof.
  run_load out E.
  assert (cell_at out "Moving_Average" 4 = Some (Num (Fin (Qc_of_Z 3))))
    as H by run_cell E.
  split; [run_cell E|]. split; [run_cell E|].
  split; [vm_compute; reflexivity|]. split; [exact H|].
  rewrite H. intros [=].
Qed.

(** ** Ticker names *)

Lemma series_map_lookup d xs i t :
  xs !! i = Some (Str t) →
  series_map d xs !! i
    = Some (match d !! t with Some v => Str v | None => Num NaN end).
Proof. intros H. unfold series_map. by rewrite list_lookup_fmap, H. Qed.

(** Ticker_Name at a row is the name the mapping has for the ticker of
    the row, and NaN when the mapping has none. *)
Lemma ticker_name_column parse csv out i t :
  load_data parse csv = Ok out →
  cell_at csv "Ticker" i = Some (Str t) →
  cell_at out "Ticker_Name" i
    = Some (match ticker_name_mapping !! t with
            | Some v => Str v
            | None => Num NaN
            end).
Proof.
  intros H Ht. apply load_data_Ok in H as (d & Hd & ->).
  destruct (assemble_derived csv d) as (_ & _ & _ & _ & _ & _ & _ & _ & _ & En).
  destruct Hd as (date & adj & opn & close & ticker & diff & ratio & Hd).
  destruct Hd as (_ & _ & _ & _ & _ & _ & _ & _ & _ & _ & _ & _ & _ & _ & _
                    & _ & Hticker & Hname).
  unfold cell_at in *. rewrite En, Hname; simpl. rewrite Hticker in Ht.
  by apply series_map_lookup.
Qed.

(** C2 on the code: the ticker ^GSPC gets the name S&P 500; the ticker XYZ,
    which the mapping does not have, gets NaN and not XYZ. *)
Theorem unknown_ticker_name :
  cell_at unknown_ticker_csv "Ticker" 0 = Some (Str "^GSPC") ∧
  cell_at unknown_ticker_csv "Ticker" 1 = Some (Str "XYZ") ∧
  ticker_name_mapping !! "XYZ" = None ∧
  ∃ out, load_data iso_datetime unknown_ticker_csv = Ok out ∧
    cell_at out "Ticker_Name" 0 = Some (Str "S&P 500") ∧
    cell_at out "Ticker_Name" 1 = Some (Num NaN) ∧
    cell_at out "Ticker_Name" 1 ≠ Some (Str "XYZ").
Proof.
  do 3 (split; [vm_compute; reflexivity|]).
  run_load out E.
  assert (cell_at out "Ticker_Name" 1 = Some (Num NaN)) as H by run_cell E.
  split; [run_cell E|]. split; [exact H|]. rewrite H. intros [=].
Qed.

(** ** Exceptions of the load *)

Lemma to_datetime_Raise parse date c :
  c ∈ date → parse c = None →
  ∃ c', to_datetime parse date = Raise (ParserError c') ∧
        c' ∈ date ∧ parse c' = None.
Proof.
  intros Hc Hp. induction date as [|x date IH]; [by apply elem_of_nil in Hc|].
  unfold to_datetime; simpl. destruct (parse x) as [dx|] eqn:Ex; simpl.
  - apply elem_of_cons in Hc as [->|Hc]; [congruence|].
    destruct (IH Hc) as (c' & Hr & Hin & Hn).
    unfold to_datetime in Hr. rewrite Hr; simpl.
    exists c'. split_and!; [done | by apply list_elem_of_further | done].
  - exists x. split_and!; [done | by apply list_elem_of_here | done].
Qed.

Lemma load_data_parser_error parse csv date c :
  csv !! "Date" = Some date → c ∈ date → parse c = None →
  ∃ c', load_data parse csv = Raise (ParserError c') ∧
        c' ∈ date ∧ parse c' = None.
Proof.
  intros Hdate Hc Hp.
  destruct (to_datetime_Raise _ _ _ Hc Hp) as (c' & Hr & Hin & Hn).
  exists c'. split; [|done]. unfold load_data; cbv zeta.
  rewrite (proj2 (getitem_Ok _ _ _) Hdate), Ok_bind. by rewrite Hr.
Qed.

Lemma load_data_missing_column parse csv key :
  key ∈ required_columns → csv !! key = None →
  ∃ e, load_data parse csv = Raise e.
Proof.
  intros Hkey Hnone. destruct (load_data parse csv) as [out|e] eqn:E;
    [exfalso|by exists e].
  apply load_data_Ok in E as (d & Hd & _).
  destruct Hd as (date & adj & opn & close & ticker & diff & ratio & Hd).
  destruct Hd as (H1 & _ & [idx H3] & H4 & H5 & _ & _ & H8 & _ & _ & _ & _
                    & _ & _ & _ & _ & H17 & _).
  unfold required_columns in Hkey.
  repeat (apply elem_of_cons in Hkey as [->|Hkey]; [congruence|]).
  by apply elem_of_nil in Hkey.
Qed.

Lemma load_data_missing_index parse csv date date' :
  csv !! "Unnamed: 0" = None →
  csv !! "Date" = Some date → to_datetime parse date = Ok date' →
  load_data parse csv = Raise (KeyError "Unnamed: 0").
Proof.
  intros Hidx Hdate Hparse. unfold load_data; cbv zeta.
  rewrite (proj2 (getitem_Ok _ _ _) Hdate), Ok_bind, Hparse, Ok_bind.
  unfold drop_column, setitem. rewrite lookup_insert_ne by discriminate.
  by rewrite Hidx.
Qed.

(** C7, as the code has it: the index column is required. Without it the
    load raises (a KeyError for the column once the dates are parsed);
    when the load returns a frame, the input had the column and the frame
    does not. *)
Theorem index_column_dropped parse csv :
  (csv !! "Unnamed: 0" = None →
     (∃ e, load_data parse csv = Raise e) ∧
     (∀ date date', csv !! "Date" = Some date →
        to_datetime parse date = Ok date' →
        load_data parse csv = Raise (KeyError "Unnamed: 0"))) ∧
  (∀ out, load_data parse csv = Ok out →
     is_Some (csv !! "Unnamed: 0") ∧ out !! "Unnamed: 0" = None).
Proof.
  split.
  - intros Hidx. split.
    + apply (load_data_missing_column _ _ "Unnamed: 0"); [|done].
      unfold required_columns. set_solver.
    + intros date date'. by apply load_data_missing_index.
  - intros out H. apply load_data_Ok in H as (d & Hd & ->).
    split; [|apply assemble_index].
    by destruct Hd as (? & ? & ? & ? & ? & ? & ? & _ & _ & ? & _).
Qed.

Lemma index_column_dropped_witness :
  (∃ e, load_data iso_datetime no_index_csv = Raise e) ∧
  ∃ out, load_data iso_datetime example_csv = Ok out ∧
    is_Some (example_csv !! "Unnamed: 0") ∧ out !! "Unnamed: 0" = None.
Proof.
  split.
  - apply (proj1 (index_column_dropped iso_datetime no_index_csv)).
    vm_compute; reflexivity.
  - run_load out E.
    by apply (proj2 (index_column_dropped iso_datetime example_csv)).
Defined.

(** C7 fails on a table without the index column: the load raises. *)
Lemma no_index_column_raises :
  no_index_csv !! "Unnamed: 0" = None ∧
  is_ok (load_data iso_datetime example_csv) = true ∧
  load_data iso_datetime no_index_csv = Raise (KeyError "Unnamed: 0").
Proof.
  split; [vm_compute; reflexivity|]. split; [vm_compute; reflexivity|].
  vm_compute; reflexivity.
Qed.

(** ** When the load succeeds *)

Lemma py_getitem_is_ok {A} (l : list A) i :
  is_ok (py_getitem l i) = true ↔
  - Z.of_nat (length l) ≤ i < Z.of_nat (length l).
Proof.
  unfold py_getitem.
  destruct (Z.ltb_spec i 0) as [Hi|Hi].
  - destruct (Z.leb_spec 0 (i + Z.of_nat (length l)));
      destruct (Z.ltb_spec (i + Z.of_nat (length l)) (Z.of_nat (length l)));
      simpl; try (split; [done | lia]).
    destruct (l !! Z.to_nat (i + Z.of_nat (length l))) eqn:E; simpl.
    + split; [lia | done].
    + apply lookup_ge_None in E. lia.
  - destruct (Z.leb_spec 0 i); destruct (Z.ltb_spec i (Z.of_nat (length l)));
      simpl; try (split; [done | lia]).
    destruct (l !! Z.to_nat i) eqn:E; simpl.
    + split; [lia | done].
    + apply lookup_ge_None in E. lia.
Qed.

Lemma month_name_of_Ok c s :
  month_name_of c = Ok s → ∃ m, c = Int m ∧ -13 ≤ m < 13.
Proof.
  destruct c as [| |m|]; simpl; try done. intros H. bind_inv H.
  exists m. split; [done|].
  by apply (py_getitem_is_ok month_name m), is_ok_true; exists x.
Qed.

Lemma month_name_of_total m :
  -13 ≤ m < 13 → ∃ s, month_name_of (Int m) = Ok s.
Proof.
  intros Hm. apply (py_getitem_is_ok month_name m), is_ok_true in Hm as [x Hx].
  simpl. rewrite Hx. by eexists.
Qed.

Lemma dates_valid parse date date' month names :
  to_datetime parse date = Ok date' →
  dt_month date' = Ok month →
  series_apply month_name_of month = Ok names →
  Forall (valid_date parse) date.
Proof.
  intros H1 H2 H3. apply Forall_lookup. intros i c Hc.
  destruct (traverse_lookup _ _ _ _ _ H1 Hc) as (t & Ht & Hi1).
  destruct (traverse_lookup _ _ _ _ _ H2 Hi1) as (mc & Hmc & Hi2).
  destruct (traverse_lookup _ _ _ _ _ H3 Hi2) as (s & Hs & _).
  apply month_name_of_Ok in Hs as (m & -> & Hm).
  destruct (parse c) as [[|y m' d]|] eqn:Ep; simplify_eq; simpl in Hmc;
    simplify_eq.
  by exists y, m, d.
Qed.

Lemma dates_total parse date :
  Forall (valid_date parse) date →
  ∃ date' year month names,
    to_datetime parse date = Ok date' ∧ dt_year date' = Ok year ∧
    dt_month date' = Ok month ∧ series_apply month_name_of month = Ok names.
Proof.
  induction 1 as [|c date (y & m & d & Hp & Hm) _ IH].
  - by exists [], [], [], [].
  - destruct IH as (date' & year & month & names & H1 & H2 & H3 & H4).
    destruct (month_name_of_total m Hm) as [s Hs].
    exists (Time (Timestamp y m d) :: date'), (Int y :: year),
      (Int m :: month), (s :: names).
    unfold to_datetime, dt_year, dt_month, series_apply in *; simpl.
    rewrite Hp; simpl. rewrite H1, H2, H3; simpl.
    simpl in Hs. rewrite Hs; simpl. by rewrite H4.
Qed.

Lemma series_arith_out_numeric op xs ys zs :
  series_arith op xs ys = Ok zs → Forall numeric zs.
Proof.
  revert ys zs. induction xs as [|x' xs IH]; intros [|y' ys] zs; simpl;
    try by intros [= <-].
  intros H. do 3 bind_inv H. injection H as <-.
  constructor; [apply numeric_Num | by eapply IH].
Qed.

Lemma rolling_mean_total w xs :
  Forall numeric xs → ∃ ma, rolling_mean w xs = Ok ma.
Proof.
  intros H. destruct (traverse_total as_num xs H) as [vals Hvals].
  unfold rolling_mean. rewrite Hvals. by eexists.
Qed.

Section Success.
Variable parse : cell → option datetime.

Lemma loadable_load_data csv :
  loadable parse csv → ∃ out, load_data parse csv = Ok out.
Proof.
  intros (date & adj & opn & close & Hdate & Hvalid & Hidx & Hadj & Nadj
            & Hopn & Nopn & Hclose & Nclose & [ticker Hticker]).
  destruct (dates_total _ _ Hvalid)
    as (date' & year & month & names & D1 & D2 & D3 & D4).
  destruct (series_arith_total num_sub _ _ Nadj Nopn) as [pc Hpc].
  destruct (direction_total pc) as [dir Hdir];
    [by eapply series_arith_out_numeric|].
  destruct (series_arith_total num_sub _ _ Nclose Nopn) as [diff Hdiff].
  destruct (series_arith_total num_div diff opn) as [ratio Hratio];
    [by eapply series_arith_out_numeric | done |].
  destruct (series_scalar_total num_mul ratio (Fin Qc100)) as [pct Hpct];
    [by eapply series_arith_out_numeric|].
  destruct (direction_total pct) as [pdir Hpdir];
    [by eapply series_scalar_numeric|].
  destruct (rolling_mean_total window_size adj Nadj) as [ma Hma].
  eexists. apply load_data_Ok.
  exists (Derived date' pc dir pct pdir ma year month names
            (series_map ticker_name_mapping ticker)).
  split; [|reflexivity].
  exists date, adj, opn, close, ticker, diff, ratio. by simpl.
Qed.

Lemma load_data_loadable csv n out :
  n_rows csv n → load_data parse csv = Ok out → loadable parse csv.
Proof.
  intros Hn H. apply load_data_Ok in H as (d & Hd & _).
  destruct Hd as (date & adj & opn & close & ticker & diff & ratio & Hd).
  destruct Hd as (Hdate & Hparse & Hidx & Hadj & Hopn & Hchange & _ & Hclose
                    & Hdiff & _ & _ & _ & _ & _ & Hmonth & Hnames
                    & Hticker & _).
  destruct (series_arith_numeric _ _ _ _ Hchange) as (Nadj & Nopn & _);
    [by rewrite (Hn _ _ Hadj), (Hn _ _ Hopn)|].
  destruct (series_arith_numeric _ _ _ _ Hdiff) as (Nclose & _ & _);
    [by rewrite (Hn _ _ Hclose), (Hn _ _ Hopn)|].
  exists date, adj, opn, close. split_and!; try done.
  by eapply dates_valid.
Qed.

(** Another numeric value in a cell of Open keeps the input loadable. *)
Lemma loadable_set_open csv opn i c :
  loadable parse csv → csv !! "Open" = Some opn → numeric c →
  loadable parse (<["Open" := <[i := c]> opn]> csv).
Proof.
  intros (date & adj & opn' & close & Hdate & Hvalid & Hidx & Hadj & Nadj
            & Hopn & Nopn & Hclose & Nclose & Hticker) Ho Hc.
  rewrite Ho in Hopn. injection Hopn as <-.
  exists date, adj, (<[i := c]> opn), close.
  split_and!;
    first [rewrite lookup_insert_eq | rewrite lookup_insert_ne by discriminate
          | idtac];
    try done.
  by apply Forall_insert.
Qed.

(** X6: on a table whose columns have the same number of rows, the load
    returns a frame exactly on the loadable inputs. *)
Lemma load_data_is_ok csv n :
  n_rows csv n → is_ok (load_data parse csv) = true ↔ loadable parse csv.
Proof.
  intros Hn. rewrite is_ok_true. split.
  - intros [out H]. by eapply load_data_loadable.
  - apply loadable_load_data.
Qed.
End Success.

(** ** The cache *)

Lemma cached_load_data_twice parse csv r1 c1 r2 c2 :
  cached_load_data parse csv None = (r1, c1) →
  cached_load_data parse csv c1 = (r2, c2) →
  r1 = load_data parse csv ∧ r2 = r1 ∧ c2 = c1.
Proof.
  unfold cached_load_data.
  destruct (load_data parse csv) as [df|e]; intros [= <- <-]; simpl.
  - by intros [= <- <-].
  - by intros [= <- <-].
Qed.

(** * Further properties of [load_data] *)

Lemma bind_step {A B} (r : result A) (f : A → result B) a R :
  r = Ok a → f a = R → r ≫= f = R.
Proof. by intros -> ?. Qed.

Lemma bind_stop {A B} (r : result A) (f : A → result B) e :
  r = Raise e → r ≫= f = Raise e.
Proof. by intros ->. Qed.

Lemma getitem_delete_eq (df : DataFrame) key :
  getitem (delete key df) key = Raise (KeyError key).
Proof. unfold getitem. by rewrite lookup_delete_eq. Qed.

Lemma drop_column_Ok_get (df : DataFrame) key key' col c :
  getitem df key' = Ok c → key ≠ key' →
  drop_column key' (setitem key col df) = Ok (delete key' (setitem key col df)).
Proof.
  intros H%getitem_Ok ?. unfold drop_column, setitem.
  rewrite lookup_insert_ne by done. by rewrite H.
Qed.

Lemma drop_column_Raise_get (df : DataFrame) key key' col e :
  getitem df key' = Raise e → key ≠ key' →
  drop_column key' (setitem key col df) = Raise e.
Proof.
  unfold drop_column, getitem, setitem. intros H ?.
  rewrite lookup_insert_ne by done. revert H.
  destruct (df !! key'); [intros [=] | by intros [= <-]].
Qed.

(** Brings the head of a chain of reads to a read of the input frame and
    closes it with an equation of the context. *)
Ltac head_eq :=
  repeat first
    [ rewrite getitem_setitem_eq
    | rewrite getitem_setitem_ne by discriminate
    | rewrite getitem_delete_ne by discriminate ];
  first [eassumption | reflexivity].

Ltac chain_step :=
  first
    [ eapply bind_step; [head_eq | cbv beta]
    | eapply bind_stop; head_eq
    | eapply bind_step;
      [eapply drop_column_Ok_get; [eassumption | discriminate] | cbv beta]
    | eapply bind_stop;
      eapply drop_column_Raise_get; [eassumption | discriminate] ].

(** [load_data] computes the columns of [derive] and assembles them. *)
Lemma load_data_derive parse csv :
  load_data parse csv
  = match derive parse csv with
    | Ok d => Ok (assemble csv d)
    | Raise e => Raise e
    end.
Proof.
  unfold derive, load_data. cbv zeta.
  repeat match goal with
         | |- _ = match ?r ≫= _ with _ => _ end =>
             let E := fresh "E" in
             destruct r eqn:E; cbn [mbind result_bind];
             [|repeat chain_step; try reflexivity]
         end.
  repeat chain_step. reflexivity.
Qed.

Lemma series_arith_length op xs ys zs :
  series_arith op xs ys = Ok zs → length zs = (length xs `min` length ys)%nat.
Proof.
  revert ys zs. induction xs as [|x' xs IH]; intros [|y' ys] zs; simpl;
    try by intros [= <-].
  intros H. do 3 bind_inv H. injection H as <-. simpl. f_equal. by apply IH.
Qed.

Lemma rolling_mean_length w xs ma :
  rolling_mean w xs = Ok ma → length ma = length xs.
Proof.
  unfold rolling_mean. intros H. bind_inv H. injection H as <-.
  by rewrite length_fmap, length_seq, (traverse_length _ _ _ E).
Qed.

Lemma month_name_lookup m s :
  1 ≤ m ≤ 12 → py_getitem month_name m = Ok s →
  month_name !! Z.to_nat m = Some s ∧ s ≠ "".
Proof.
  intros Hm. unfold py_getitem.
  destruct (Z.ltb_spec m 0) as [?|_]; [lia|].
  destruct (Z.leb_spec 0 m); [|lia].
  destruct (Z.ltb_spec m (Z.of_nat (length month_name))); simpl; [|done].
  destruct (month_name !! Z.to_nat m) as [s'|] eqn:E; [|done].
  intros [= ->]. split; [done|].
  assert (∃ n, Z.to_nat m = S n ∧ (n < 12)%nat) as (n & Hn & Hlt).
  { exists (Z.to_nat m - 1)%nat. lia. }
  rewrite Hn in E. do 12 (destruct n as [|n]; [by injection E as <-|]). lia.
Qed.

(** X1: the calendar columns: at a row whose Date cell parses to the day
    [d] of month [m] of year [y], the returned frame holds that date, the
    integers [y] and [m], and the name [calendar.month_name] has at [m];
    for a month from 1 to 12 this is the entry [m] of the table of names
    and it is not empty. *)
Theorem calendar_columns parse csv out i c y m d :
  load_data parse csv = Ok out →
  cell_at csv "Date" i = Some c →
  parse c = Some (Timestamp y m d) →
  cell_at out "Date" i = Some (Time (Timestamp y m d)) ∧
  cell_at out "Year" i = Some (Int y) ∧
  cell_at out "Month" i = Some (Int m) ∧
  ∃ s, cell_at out "Month_Name" i = Some (Str s) ∧
       py_getitem month_name m = Ok s ∧
       (1 ≤ m ≤ 12 → month_name !! Z.to_nat m = Some s ∧ s ≠ "").
Proof.
  intros H Hc Hp. apply load_data_Ok in H as (dv & Hd & ->).
  destruct (assemble_derived csv dv)
    as (Edate & _ & _ & _ & _ & _ & Eyear & Emonth & Ename & _).
  destruct Hd as (date & adj & opn & close & ticker & diff & ratio & Hd).
  destruct Hd as (Hdate & Hparse & _ & _ & _ & _ & _ & _ & _ & _ & _ & _ & _
                    & Hyear & Hmonth & Hnames & _).
  unfold cell_at in *. rewrite Hdate in Hc; simpl in Hc.
  rewrite Edate, Eyear, Emonth, Ename; simpl.
  destruct (traverse_lookup _ _ _ _ _ Hparse Hc) as (t & Ht & Hi1).
  rewrite Hp in Ht. injection Ht as <-.
  destruct (traverse_lookup _ _ _ _ _ Hyear Hi1) as (yc & Hyc & Hi2).
  destruct (traverse_lookup _ _ _ _ _ Hmonth Hi1) as (mc & Hmc & Hi3).
  simpl in Hyc, Hmc. injection Hyc as <-. injection Hmc as <-.
  destruct (traverse_lookup _ _ _ _ _ Hnames Hi3) as (nc & Hnc & Hi4).
  unfold month_name_of in Hnc. bind_inv Hnc. injection Hnc as <-.
  split_and!; try done. exists x. split_and!; try done.
  intros Hm. by apply month_name_lookup.
Qed.

Lemma calendar_columns_witness :
  ∃ out, load_data iso_datetime interleaved_csv = Ok out ∧
    cell_at out "Year" 4 = Some (Int 2020) ∧
    cell_at out "Month" 4 = Some (Int 1) ∧
    cell_at out "Month_Name" 4 = Some (Str "January").
Proof.
  run_load out E.
  destruct (calendar_columns iso_datetime interleaved_csv out 4
              (Str "2020-01-06") 2020 1 6 E)
    as (_ & Hy & Hm & s & Hs & _ & Hn); try (vm_compute; reflexivity).
  destruct Hn as [Hn _]; [lia|]. injection Hn as <-.
  split; [exact Hy|]. split; [exact Hm | exact Hs].
Defined.

Lemma derive_Ok parse csv d :
  derive parse csv = Ok d ↔ derives parse csv d.
Proof.
  split.
  - intros H. assert (load_data parse csv = Ok (assemble csv d)) as Hl
      by (by rewrite load_data_derive, H).
    apply load_data_Ok in Hl as (d' & Hd' & _).
    destruct Hd' as (date & adj & opn & close & ticker & diff & ratio & Hd').
    destruct Hd' as (H1 & H2 & [idx H3] & H4 & H5 & H6 & H7 & H8 & H9 & H10
                       & H11 & H12 & H13 & H14 & H15 & H16 & H17 & H18).
    apply getitem_Ok in H1, H3, H4, H5, H8, H17.
    unfold derive in H. rewrite H1, Ok_bind, H2, Ok_bind, H3, Ok_bind, H4,
      Ok_bind, H5, Ok_bind, H6, Ok_bind, H7, Ok_bind, H8, Ok_bind, H9, Ok_bind,
      H10, Ok_bind, H11, Ok_bind, H12, Ok_bind, H13, Ok_bind, H14, Ok_bind,
      H15, Ok_bind, H16, Ok_bind, H17, Ok_bind in H.
    injection H as <-.
    exists date, adj, opn, close, ticker, diff, ratio.
    apply getitem_Ok in H1, H3, H4, H5, H8, H17. simpl. split_and!; eauto.
  - intros (date & adj & opn & close & ticker & diff & ratio & Hd).
    destruct Hd as (H1 & H2 & [idx H3] & H4 & H5 & H6 & H7 & H8 & H9 & H10
                      & H11 & H12 & H13 & H14 & H15 & H16 & H17 & H18).
    apply getitem_Ok in H1, H3, H4, H5, H8, H17.
    unfold derive. rewrite H1, Ok_bind, H2, Ok_bind, H3, Ok_bind, H4,
      Ok_bind, H5, Ok_bind, H6, Ok_bind, H7, Ok_bind, H8, Ok_bind, H9, Ok_bind,
      H10, Ok_bind, H11, Ok_bind, H12, Ok_bind, H13, Ok_bind, H14, Ok_bind,
      H15, Ok_bind, H16, Ok_bind, H17, Ok_bind.
    destruct d; simpl in *. by subst.
Qed.

Lemma load_data_Ok_derive parse csv out :
  load_data parse csv = Ok out ↔ ∃ d, derive parse csv = Ok d ∧ out = assemble csv d.
Proof.
  rewrite load_data_Ok. by setoid_rewrite derive_Ok.
Qed.

Lemma derived_lengths parse csv d n :
  n_rows csv n → derives parse csv d →
  Forall (λ col, length col = n)
    [d_date d; d_change d; d_change_dir d; d_pct d; d_pct_dir d; d_ma d;
     d_year d; d_month d; d_month_name d; d_ticker_name d].
Proof.
  intros Hn (date & adj & opn & close & ticker & diff & ratio & Hd).
  destruct Hd as (H1 & H2 & _ & H4 & H5 & H6 & H7 & H8 & H9 & H10
                    & H11 & H12 & H13 & H14 & H15 & H16 & H17 & H18).
  apply Hn in H1, H4, H5, H8, H17.
  apply traverse_length in H2, H7, H11, H12, H14, H15, H16.
  apply series_arith_length in H6, H9, H10. apply rolling_mean_length in H13.
  assert (length (d_ticker_name d) = n)
    by (rewrite H18; unfold series_map; by rewrite length_fmap).
  repeat (constructor; [lia|]). constructor.
Qed.

(** X2: the number of rows is kept: on a table of [n] rows, every column of
    the returned frame, read or computed, has [n] rows. *)
Theorem load_data_rows parse csv out n :
  n_rows csv n → load_data parse csv = Ok out → n_rows out n.
Proof.
  intros Hn H. apply load_data_Ok in H as (d & Hd & ->).
  pose proof (derived_lengths _ _ _ _ Hn Hd) as Hlen.
  repeat (apply Forall_cons_1 in Hlen as [? Hlen]).
  unfold n_rows, assemble, setitem.
  repeat (apply map_Forall_insert_2; [done|]).
  apply map_Forall_delete. by apply map_Forall_insert_2.
Qed.

Lemma load_data_rows_witness :
  ∃ out, load_data iso_datetime interleaved_csv = Ok out ∧ n_rows out 5.
Proof.
  run_load out E.
  apply (load_data_rows iso_datetime interleaved_csv out 5); [|exact E].
  decide_run.
Defined.

(** X3: the columns of the returned frame are those of the input without the
    index column, together with the nine computed ones; a column of the
    input other than Date, the index and the computed names is returned
    as it was read. *)
Theorem load_data_columns parse csv out :
  load_data parse csv = Ok out →
  dom out = (dom csv ∖ {["Unnamed: 0"]}) ∪ list_to_set derived_columns ∧
  (∀ key, key ∉ derived_columns → key ≠ "Date" → key ≠ "Unnamed: 0" →
     out !! key = csv !! key).
Proof.
  intros H. apply load_data_Ok in H as (d & Hd & ->).
  destruct Hd as (date & ? & ? & ? & ? & ? & ? & Hdate & _).
  apply (elem_of_dom_2 (D := gset string)) in Hdate. split.
  - unfold assemble, setitem, derived_columns.
    rewrite !dom_insert_L, dom_delete_L, dom_insert_L. simpl.
    apply set_eq. intros k. rewrite !elem_of_union, !elem_of_difference,
      !elem_of_union, !elem_of_singleton, elem_of_empty.
    destruct (decide (k = "Date")) as [->|]; [|tauto].
    split; [|by eauto 20]. intros _. left. split; [done | discriminate].
  - intros key Hkey Hdt Hidx. unfold derived_columns in Hkey.
    rewrite !not_elem_of_cons in Hkey.
    destruct Hkey as (? & ? & ? & ? & ? & ? & ? & ? & ? & _).
    unfold assemble, setitem.
    rewrite !lookup_insert_ne by done. rewrite lookup_delete_ne by done.
    by rewrite lookup_insert_ne.
Qed.

Lemma load_data_columns_witness :
  ∃ out, load_data iso_datetime example_csv = Ok out ∧
    out !! "Volume" = example_csv !! "Volume".
Proof.
  run_load out E.
  apply (proj2 (load_data_columns iso_datetime example_csv out E));
    [decide_run | discriminate..].
Defined.

Ltac in_list := repeat first [apply list_elem_of_here | apply list_elem_of_further].

Lemma derive_ext parse csv1 csv2 :
  (∀ key, key ∈ required_columns → csv1 !! key = csv2 !! key) →
  derive parse csv1 = derive parse csv2.
Proof.
  intros H. unfold derive, getitem, required_columns in *.
  rewrite (H "Date"), (H "Unnamed: 0"), (H "Adj Close"), (H "Open"),
    (H "Close"), (H "Ticker") by in_list.
  reflexivity.
Qed.

(** X4: the load reads six columns and no other: two tables that agree on
    Date, the index, Adj Close, Open, Close and Ticker raise the same
    exception or return frames with the same Date and computed columns,
    whatever their other columns (Volume, High, Low) hold. *)
Theorem load_data_reads_six_columns parse csv1 csv2 :
  (∀ key, key ∈ required_columns → csv1 !! key = csv2 !! key) →
  match load_data parse csv1, load_data parse csv2 with
  | Ok out1, Ok out2 =>
      ∀ key, key = "Date" ∨ key ∈ derived_columns → out1 !! key = out2 !! key
  | Raise e1, Raise e2 => e1 = e2
  | _, _ => False
  end.
Proof.
  intros H. rewrite !load_data_derive, (derive_ext parse csv1 csv2 H).
  destruct (derive parse csv2) as [d|e]; [|done].
  intros key [->|Hkey].
  - by destruct (assemble_derived csv1 d) as (-> & _),
      (assemble_derived csv2 d) as (-> & _).
  - destruct (assemble_derived csv1 d)
      as (_ & E1 & E2 & E3 & E4 & E5 & E6 & E7 & E8 & E9),
      (assemble_derived csv2 d)
      as (_ & F1 & F2 & F3 & F4 & F5 & F6 & F7 & F8 & F9).
    unfold derived_columns in Hkey.
    repeat (apply elem_of_cons in Hkey as [->|Hkey]; [congruence|]).
    by apply elem_of_nil in Hkey.
Qed.

Lemma load_data_reads_six_columns_witness :
  result_column (load_data iso_datetime example_csv) "Moving_Average"
  = result_column (load_data iso_datetime example_csv_other_volume)
      "Moving_Average".
Proof.
  pose proof (load_data_reads_six_columns iso_datetime example_csv
                example_csv_other_volume) as H.
  destruct (load_data iso_datetime example_csv) as [o1|e1] eqn:E1,
    (load_data iso_datetime example_csv_other_volume) as [o2|e2] eqn:E2;
    simpl.
  - apply H; [|right; unfold derived_columns; in_list].
    intros key Hkey. unfold required_columns in Hkey.
    repeat (apply elem_of_cons in Hkey as [->|Hkey]; [vm_compute; reflexivity|]).
    destruct (proj1 (elem_of_nil _) Hkey).
  - exfalso. assert (is_ok (load_data iso_datetime example_csv_other_volume)
                     = true) as Hok by (vm_compute; reflexivity).
    rewrite E2 in Hok. discriminate Hok.
  - exfalso. assert (is_ok (load_data iso_datetime example_csv) = true)
      as Hok by (vm_compute; reflexivity).
    rewrite E1 in Hok. discriminate Hok.
  - reflexivity.
Defined.

(** X5: without one of the six columns it reads, a table that would load
    makes the load raise the KeyError of exactly that column. *)
Theorem missing_column_key_error parse csv key :
  loadable parse csv → key ∈ required_columns →
  load_data parse (delete key csv) = Raise (KeyError key).
Proof.
  intros Hload Hkey. destruct (loadable_load_data _ _ Hload) as [out Hout].
  apply load_data_Ok in Hout as (d & Hd & _).
  destruct Hd as (date & adj & opn & close & ticker & diff & ratio & Hd).
  destruct Hd as (H1 & H2 & [idx H3] & H4 & H5 & H6 & H7 & H8 & H9 & H10
                    & H11 & H12 & H13 & H14 & H15 & H16 & H17 & _).
  apply getitem_Ok in H1, H3, H4, H5, H8, H17.
  rewrite load_data_derive.
  assert (derive parse (delete key csv) = Raise (KeyError key)) as ->; [|done].
  unfold derive, required_columns in *.
  repeat (apply elem_of_cons in Hkey as [->|Hkey];
    [repeat first
       [ eapply bind_stop; apply getitem_delete_eq
       | eapply bind_step; [head_eq | cbv beta] ] |]).
  by apply elem_of_nil in Hkey.
Qed.

Lemma example_csv_loadable : loadable iso_datetime example_csv.
Proof.
  destruct (load_data iso_datetime example_csv) as [out|e] eqn:E.
  - eapply (load_data_loadable _ _ 1%nat); [decide_run | exact E].
  - exfalso. assert (is_ok (load_data iso_datetime example_csv) = true)
      as Hok by (vm_compute; reflexivity).
    rewrite E in Hok. discriminate Hok.
Qed.

Lemma missing_column_key_error_witness :
  load_data iso_datetime (delete "Close" example_csv) = Raise (KeyError "Close").
Proof.
  apply (missing_column_key_error iso_datetime example_csv "Close").
  - exact example_csv_loadable.
  - unfold required_columns. in_list.
Defined.

Lemma load_data_is_ok_witness :
  is_ok (load_data iso_datetime interleaved_csv) = true
  ∧ loadable iso_datetime interleaved_csv.
Proof.
  assert (is_ok (load_data iso_datetime interleaved_csv) = true) as H
    by (vm_compute; reflexivity).
  split; [exact H|].
  apply (load_data_is_ok iso_datetime interleaved_csv 5); [decide_run | exact H].
Defined.

Lemma ticker_name_column_witness :
  ∃ out, load_data iso_datetime unknown_ticker_csv = Ok out ∧
    cell_at out "Ticker_Name" 0 = Some (Str "S&P 500") ∧
    cell_at out "Ticker_Name" 1 = Some (Num NaN).
Proof.
  run_load out E. split.
  - apply (ticker_name_column iso_datetime unknown_ticker_csv out 0 "^GSPC" E).
    vm_compute; reflexivity.
  - apply (ticker_name_column iso_datetime unknown_ticker_csv out 1 "XYZ" E).
    vm_compute; reflexivity.
Defined.

(** ** A missing date *)

Lemma traverse_Raise_first {A B} (f : A → result B) l e :
  Forall (λ x, (∃ y, f x = Ok y) ∨ f x = Raise e) l →
  Exists (λ x, f x = Raise e) l →
  traverse f l = Raise e.
Proof.
  induction 1 as [|x l Hx _ IH]; intros Hex; [by inversion Hex|].
  simpl. destruct Hx as [[y Hy]|Hx]; [|by rewrite Hx].
  rewrite Hy; simpl. inversion Hex as [?? Hx|?? Hl]; subst; [congruence|].
  by rewrite (IH Hl).
Qed.

Lemma dates_parse_total parse date :
  Forall (λ c, valid_date parse c ∨ parse c = Some NaT) date →
  ∃ date' year month,
    to_datetime parse date = Ok date' ∧ dt_year date' = Ok year ∧
    dt_month date' = Ok month ∧
    Forall2 (λ c mc, (∃ s, parse c ≠ Some NaT ∧ month_name_of mc = Ok s) ∨
                     (parse c = Some NaT ∧ month_name_of mc = Raise TypeError))
            date month.
Proof.
  induction 1 as [|c date Hc _ IH]; [by exists [], [], []|].
  destruct IH as (date' & year & month & H1 & H2 & H3 & H4).
  unfold to_datetime, dt_year, dt_month in *.
  destruct Hc as [(y & m & d & Hp & Hm)|Hp].
  - destruct (month_name_of_total m Hm) as [s Hs].
    exists (Time (Timestamp y m d) :: date'), (Int y :: year), (Int m :: month).
    simpl. rewrite Hp; simpl. rewrite H1, H2, H3; simpl.
    split_and!; try done. constructor; [|done].
    left. exists s. split; [congruence | done].
  - exists (Time NaT :: date'), (Num NaN :: year), (Num NaN :: month).
    simpl. rewrite Hp; simpl. rewrite H1, H2, H3; simpl.
    split_and!; try done. constructor; [|done]. by right.
Qed.

(** X7: a Date cell that parses to no date (a missing date, NaT) is not a
    parse error, and yet the load raises: in a table that would load but
    for such cells, the month name lookup raises TypeError, as the month
    of a missing date is NaN and not an integer. *)
Theorem missing_date_raises parse csv date adj opn close :
  csv !! "Date" = Some date →
  Forall (λ c, valid_date parse c ∨ parse c = Some NaT) date →
  Exists (λ c, parse c = Some NaT) date →
  is_Some (csv !! "Unnamed: 0") →
  csv !! "Adj Close" = Some adj → Forall numeric adj →
  csv !! "Open" = Some opn → Forall numeric opn →
  csv !! "Close" = Some close → Forall numeric close →
  load_data parse csv = Raise TypeError.
Proof.
  intros H1 Hdates Hnat [idx H3] H4 Nadj H5 Nopn H8 Nclose.
  destruct (dates_parse_total _ _ Hdates)
    as (date' & year & month & D1 & D2 & D3 & D4).
  destruct (series_arith_total num_sub _ _ Nadj Nopn) as [pc Hpc].
  destruct (direction_total pc) as [dir Hdir];
    [by eapply series_arith_out_numeric|].
  destruct (series_arith_total num_sub _ _ Nclose Nopn) as [diff Hdiff].
  destruct (series_arith_total num_div diff opn) as [ratio Hratio];
    [by eapply series_arith_out_numeric | done |].
  destruct (series_scalar_total num_mul ratio (Fin Qc100)) as [pct Hpct];
    [by eapply series_arith_out_numeric|].
  destruct (direction_total pct) as [pdir Hpdir];
    [by eapply series_scalar_numeric|].
  destruct (rolling_mean_total window_size adj Nadj) as [ma Hma].
  assert (series_apply month_name_of month = Raise TypeError) as Hnames.
  { apply traverse_Raise_first.
    - clear -D4. induction D4 as [|c mc ?? [(s & _ & Hs)|[_ Hs]] _ IH];
        constructor; eauto.
    - clear -D4 Hnat. induction D4 as [|c mc ?? Hc _ IH];
        [by inversion Hnat|].
      inversion Hnat as [?? Hp|?? Hl]; subst.
      + left. by destruct Hc as [(s & Hne & _)|[_ Hs]].
      + right. by apply IH. }
  apply getitem_Ok in H1, H3, H4, H5, H8.
  rewrite load_data_derive.
  assert (derive parse csv = Raise TypeError) as ->; [|done].
  unfold derive. repeat chain_step.
Qed.

Lemma missing_date_raises_witness :
  load_data iso_datetime missing_date_csv = Raise TypeError.
Proof.
  apply (missing_date_raises iso_datetime missing_date_csv
           [Str "2020-01-02"; Num NaN]
           [price 104; price 106] [price 100; price 105]
           [price 105; price 106]);
    try (vm_compute; reflexivity);
    try (repeat constructor; apply numeric_Num).
  - constructor; [|constructor; [by right | constructor]].
    left. exists 2020, 1, 2. split; [vm_compute; reflexivity | lia].
  - by eexists.
Defined.

(** * The errors of the load *)

Lemma loaded_Ok csv :
  is_ok (load_data iso_datetime csv) = true →
  load_data iso_datetime csv = Ok (loaded csv).
Proof. unfold loaded. by destruct (load_data iso_datetime csv). Qed.

(** ** Dates that are no calendar date *)

(** With a missing date in an input that is well-formed otherwise, the
    computation stops at the month names. *)
Lemma derive_missing_date parse csv date adj opn close :
  csv !! "Date" = Some date →
  Forall (λ c, valid_date parse c ∨ parse c = Some NaT) date →
  Exists (λ c, parse c = Some NaT) date →
  is_Some (csv !! "Unnamed: 0") →
  csv !! "Adj Close" = Some adj → Forall numeric adj →
  csv !! "Open" = Some opn → Forall numeric opn →
  csv !! "Close" = Some close → Forall numeric close →
  derive parse csv = Raise TypeError.
Proof.
  intros H1 Hdates Hnat [idx H3] H4 Nadj H5 Nopn H8 Nclose.
  destruct (dates_parse_total _ _ Hdates)
    as (date' & year & month & D1 & D2 & D3 & D4).
  destruct (series_arith_total num_sub _ _ Nadj Nopn) as [pc Hpc].
  destruct (direction_total pc) as [dir Hdir];
    [by eapply series_arith_out_numeric|].
  destruct (series_arith_total num_sub _ _ Nclose Nopn) as [diff Hdiff].
  destruct (series_arith_total num_div diff opn) as [ratio Hratio];
    [by eapply series_arith_out_numeric | done |].
  destruct (series_scalar_total num_mul ratio (Fin Qc100)) as [pct Hpct];
    [by eapply series_arith_out_numeric|].
  destruct (direction_total pct) as [pdir Hpdir];
    [by eapply series_scalar_numeric|].
  destruct (rolling_mean_total window_size adj Nadj) as [ma Hma].
  assert (Forall (λ mc, (∃ s, month_name_of mc = Ok s)
                        ∨ month_name_of mc = Raise TypeError) month) as Hall.
  { clear -D4. induction D4 as [|c mc ?? [(s & _ & Hs)|[_ Hs]] _ IH];
      constructor; eauto. }
  assert (Exists (λ mc, month_name_of mc = Raise TypeError) month) as Hex.
  { clear -D4 Hnat. induction D4 as [|c mc ?? Hc _ IH];
      [by inversion Hnat|].
    inversion Hnat as [?? Hp|?? Hl]; subst.
    - left. by destruct Hc as [(s & Hne & _)|[_ Hs]].
    - right. by apply IH. }
  pose proof (traverse_Raise_first _ _ _ Hall Hex) as Hnames.
  apply getitem_Ok in H1, H3, H4, H5, H8.
  unfold derive. repeat chain_step.
Qed.

(** C8, as the code has it: a Date cell that is no calendar date makes
    the load fail, and no frame is returned. The failure is the parser's
    error when [pd.to_datetime] raises on the cell. When [pd.to_datetime]
    turns the cell into the missing date NaT, there is no parser error: in
    a table that has only dates and missing dates and is well-formed
    otherwise, the load raises the TypeError of the month name lookup. *)
Theorem unparseable_date_raises parse csv date c :
  csv !! "Date" = Some date → c ∈ date →
  (∀ y m d, parse c ≠ Some (Timestamp y m d)) →
  (∀ out, load_data parse csv ≠ Ok out) ∧
  (parse c = None →
     ∃ c', load_data parse csv = Raise (ParserError c') ∧
           c' ∈ date ∧ parse c' = None) ∧
  (∀ adj opn close,
     parse c = Some NaT →
     Forall (λ c', valid_date parse c' ∨ parse c' = Some NaT) date →
     is_Some (csv !! "Unnamed: 0") →
     csv !! "Adj Close" = Some adj → Forall numeric adj →
     csv !! "Open" = Some opn → Forall numeric opn →
     csv !! "Close" = Some close → Forall numeric close →
     load_data parse csv = Raise TypeError).
Proof.
  intros Hdate Hc Hno. split_and!.
  - intros out H. apply load_data_Ok in H as (dv & Hd & _).
    destruct Hd as (date' & adj & opn & close & ticker & diff & ratio & Hd).
    destruct Hd as (Hdate' & Hparse & _ & _ & _ & _ & _ & _ & _ & _ & _ & _
                      & _ & _ & Hmonth & Hnames & _).
    rewrite Hdate in Hdate'. injection Hdate' as <-.
    pose proof (dates_valid _ _ _ _ _ Hparse Hmonth Hnames) as Hvalid.
    destruct (proj1 (list.Forall_forall _ _) Hvalid c Hc) as (y & m & d & Hp & _).
    exact (Hno y m d Hp).
  - intros Hp.
    destruct (load_data_parser_error _ _ _ _ Hdate Hc Hp) as (c' & Hr & Hin & Hn).
    by exists c'.
  - intros adj opn close Hp Hdates Hidx Hadj Nadj Hopn Nopn Hclose Nclose.
    rewrite load_data_derive.
    rewrite (derive_missing_date parse csv date adj opn close); try done.
    apply list.Exists_exists. by exists c.
Qed.

Lemma unparseable_date_raises_witness :
  load_data iso_datetime bad_date_csv = Raise (ParserError (Str "yesterday")) ∧
  load_data iso_datetime missing_date_csv = Raise TypeError.
Proof.
  split.
  - destruct (unparseable_date_raises iso_datetime bad_date_csv
                [Str "2020-01-02"; Str "yesterday"] (Str "yesterday"))
      as (_ & Hraise & _).
    + vm_compute; reflexivity.
    + apply list_elem_of_further, list_elem_of_here.
    + intros y m d Hp. vm_compute in Hp. discriminate Hp.
    + destruct Hraise as (c' & Hr & Hin & Hn); [vm_compute; reflexivity|].
      rewrite Hr. do 2 f_equal.
      apply elem_of_cons in Hin as [->|Hin]; [by vm_compute in Hn|].
      apply elem_of_cons in Hin as [->|Hin]; [done|].
      by apply elem_of_nil in Hin.
  - destruct (unparseable_date_raises iso_datetime missing_date_csv
                [Str "2020-01-02"; Num NaN] (Num NaN))
      as (_ & _ & Hnat).
    + vm_compute; reflexivity.
    + apply list_elem_of_further, list_elem_of_here.
    + intros y m d Hp. vm_compute in Hp. discriminate Hp.
    + apply (Hnat [price 104; price 106] [price 100; price 105]
               [price 105; price 106]);
        try (vm_compute; reflexivity);
        try (repeat constructor; apply numeric_Num).
      * constructor; [|constructor; [by right | constructor]].
        left. exists 2020, 1, 2. split; [vm_compute; reflexivity | lia].
      * by eexists.
Defined.

(** C8 fails on a missing date: the second row of the file has an empty
    Date, which is no calendar date; [pd.to_datetime] raises nothing on
    it and the load fails with a TypeError, not with a parser error. *)
Lemma missing_date_type_error :
  missing_date_csv !! "Date" = Some [Str "2020-01-02"; Num NaN] ∧
  iso_datetime (Num NaN) = Some NaT ∧
  load_data iso_datetime missing_date_csv = Raise TypeError ∧
  (∀ c, load_data iso_datetime missing_date_csv ≠ Raise (ParserError c)).
Proof.
  assert (load_data iso_datetime missing_date_csv = Raise TypeError) as H
    by (vm_compute; reflexivity).
  split; [vm_compute; reflexivity|]. split; [reflexivity|].
  split; [exact H|]. intros c. rewrite H. discriminate.
Qed.

(** ** What the load detects *)

(** C6, as the code has it. A missing column among the six the load
    reads and a date on which the parser raises make the load raise: no
    frame is returned, and a returned frame has every derived column.
    A missing Volume column is not detected: a table that loads still
    loads without it, with the same Date and derived columns. An Open of
    0 is not detected either: a table that loads still loads with an Open
    cell set to 0, and the returned frame holds a percentage that is not
    finite at that row. *)
Theorem load_errors parse csv :
  (∀ key, key ∈ required_columns → csv !! key = None →
     ∃ e, load_data parse csv = Raise e) ∧
  (∀ date c, csv !! "Date" = Some date → c ∈ date → parse c = None →
     ∃ c', load_data parse csv = Raise (ParserError c')) ∧
  (∀ out, load_data parse csv = Ok out →
     ∀ key, key ∈ derived_columns → is_Some (out !! key)) ∧
  (∀ out, load_data parse csv = Ok out →
     ∃ out', load_data parse (delete "Volume" csv) = Ok out' ∧
       ∀ key, key = "Date" ∨ key ∈ derived_columns →
         out' !! key = out !! key) ∧
  (∀ n out opn i, n_rows csv n → load_data parse csv = Ok out →
     csv !! "Open" = Some opn → (i < n)%nat →
     ∃ out' p,
       load_data parse (<["Open" := <[i := Num (Fin 0%Qc)]> opn]> csv)
       = Ok out' ∧
       cell_at out' "Price_Percentage_Change" i = Some (Num p) ∧
       is_finite p = false).
Proof.
  split_and!.
  - intros key. apply load_data_missing_column.
  - intros date c Hdate Hc Hp.
    destruct (load_data_parser_error _ _ _ _ Hdate Hc Hp) as (c' & Hr & _).
    by exists c'.
  - intros out H key Hkey. apply load_data_Ok in H as (d & _ & ->).
    destruct (assemble_derived csv d)
      as (_ & E1 & E2 & E3 & E4 & E5 & E6 & E7 & E8 & E9).
    unfold derived_columns in Hkey.
    repeat (apply elem_of_cons in Hkey as [->|Hkey]; [by eexists|]).
    by apply elem_of_nil in Hkey.
  - intros out H. rewrite load_data_derive in H. rewrite load_data_derive.
    rewrite (derive_ext parse (delete "Volume" csv) csv).
    + destruct (derive parse csv) as [d|e]; [|done]. injection H as <-.
      eexists. split; [reflexivity|]. intros key [->|Hkey].
      * by destruct (assemble_derived (delete "Volume" csv) d) as (-> & _),
          (assemble_derived csv d) as (-> & _).
      * destruct (assemble_derived (delete "Volume" csv) d)
          as (_ & E1 & E2 & E3 & E4 & E5 & E6 & E7 & E8 & E9),
          (assemble_derived csv d)
          as (_ & F1 & F2 & F3 & F4 & F5 & F6 & F7 & F8 & F9).
        unfold derived_columns in Hkey.
        repeat (apply elem_of_cons in Hkey as [->|Hkey]; [congruence|]).
        by apply elem_of_nil in Hkey.
    + intros key Hkey. apply lookup_delete_ne. intros <-.
      unfold required_columns in Hkey.
      repeat (apply elem_of_cons in Hkey as [Hkey|Hkey]; [discriminate Hkey|]).
      by apply elem_of_nil in Hkey.
  - intros n out opn i Hn H Ho Hi.
    pose proof (load_data_loadable parse csv n out Hn H) as Hl.
    destruct (loadable_load_data parse _
                (loadable_set_open parse csv opn i (Num (Fin 0%Qc)) Hl Ho
                   (numeric_Num _))) as [out' H'].
    destruct Hl as (date & adj & opn' & close & _ & _ & _ & _ & _ & _ & _
                      & Hclose & Nclose & _).
    pose proof (Hn _ _ Ho) as Lo. pose proof (Hn _ _ Hclose) as Lc.
    simpl in Lo, Lc.
    destruct (lookup_lt_is_Some_2 close i) as [cc Hcc]; [lia|].
    destruct (Forall_lookup_1 _ _ _ _ Nclose Hcc) as [c Hc].
    exists out', (percent_of c (Fin 0%Qc)). split; [done|].
    split; [|apply percent_of_zero_open].
    apply (load_data_percent_row _ _ _ _ _ _ H').
    + apply num_at_Some.
      exists (<[i := Num (Fin 0%Qc)]> opn), (Num (Fin 0%Qc)). split_and!.
      * by rewrite lookup_insert_eq.
      * apply list_lookup_insert_eq. lia.
      * done.
    + apply num_at_Some. exists close, cc.
      by rewrite lookup_insert_ne by discriminate.
Qed.

Lemma load_errors_witness :
  (∃ e, load_data iso_datetime no_index_csv = Raise e) ∧
  (∃ c, load_data iso_datetime bad_date_csv = Raise (ParserError c)) ∧
  (∃ out, load_data iso_datetime (delete "Volume" example_csv) = Ok out) ∧
  (∃ out p, load_data iso_datetime
              (<["Open" := <[0%nat := Num (Fin 0%Qc)]> [price 100]]> example_csv)
            = Ok out ∧
     cell_at out "Price_Percentage_Change" 0 = Some (Num p) ∧
     is_finite p = false).
Proof.
  pose proof (loaded_Ok example_csv) as E.
  split_and!.
  - apply (proj1 (load_errors iso_datetime no_index_csv) "Unnamed: 0").
    + unfold required_columns. apply list_elem_of_further, list_elem_of_here.
    + vm_compute; reflexivity.
  - apply (proj1 (proj2 (load_errors iso_datetime bad_date_csv))
             [Str "2020-01-02"; Str "yesterday"] (Str "yesterday")).
    + vm_compute; reflexivity.
    + apply list_elem_of_further, list_elem_of_here.
    + vm_compute; reflexivity.
  - destruct (proj1 (proj2 (proj2 (proj2 (load_errors iso_datetime example_csv))))
                (loaded example_csv)) as (out' & H' & _).
    + apply E. vm_compute; reflexivity.
    + by exists out'.
  - apply (proj2 (proj2 (proj2 (proj2 (load_errors iso_datetime example_csv))))
             1%nat (loaded example_csv) [price 100] 0%nat).
    + decide_run.
    + apply E. vm_compute; reflexivity.
    + vm_compute; reflexivity.
    + lia.
Defined.

(** C6 fails on a zero Open and on a missing Volume. The first table has
    two rows that open at 0: the load raises nothing and returns a frame
    whose percentages are +inf and NaN. The second is the example without
    its Volume column: the load raises nothing. *)
Lemma undetected_errors :
  num_at zero_open_flat_csv "Open" 0 = Some (Fin (Qc_of_Z 0)) ∧
  num_at zero_open_flat_csv "Open" 1 = Some (Fin (Qc_of_Z 0)) ∧
  (∃ out, load_data iso_datetime zero_open_flat_csv = Ok out ∧
     cell_at out "Price_Percentage_Change" 0 = Some (Num PInf) ∧
     cell_at out "Price_Percentage_Change" 1 = Some (Num NaN)) ∧
  is_Some (example_csv !! "Volume") ∧
  delete "Volume" example_csv !! "Volume" = None ∧
  is_ok (load_data iso_datetime (delete "Volume" example_csv)) = true.
Proof.
  do 2 (split; [vm_compute; reflexivity|]). split.
  - run_load out E. split; run_cell E.
  - split_and!; [by eexists | apply lookup_delete_eq | vm_compute; reflexivity].
Qed.

(** * Properties of the charts *)

(** ** Masks *)

Section Select.
Context {A : Type}.
Implicit Types (mask : list bool) (col : list A).

Lemma sublist_select mask col : select mask col `sublist_of` col.
Proof.
  revert col. induction mask as [|b mask IH]; intros [|x col]; simpl;
    try apply sublist_nil_l.
  destruct b; [by apply sublist_skip | by apply sublist_cons].
Qed.

Lemma Forall_select (P : A → Prop) mask col :
  Forall P col → Forall P (select mask col).
Proof.
  intros H. revert mask. induction H as [|x col Hx _ IH]; intros [|b mask];
    simpl; try constructor.
  destruct b; [by constructor | apply IH].
Qed.

Lemma elem_of_select mask col x : x ∈ select mask col → x ∈ col.
Proof. intros H. eapply elem_of_sublist; [done | apply sublist_select]. Qed.

Lemma select_fmap (f : A → bool) col :
  select (f <$> col) col = filter (λ x, f x = true) col.
Proof.
  induction col as [|x col IH]; [done|]. rewrite fmap_cons. cbn [select].
  rewrite IH. destruct (f x) eqn:E.
  - by rewrite filter_cons_True.
  - rewrite filter_cons_False; [done|]. by rewrite E.
Qed.

Lemma length_select_fmap {B} (f : B → bool) (keys : list B) col :
  length keys = length col →
  length (select (f <$> keys) col) = length (filter (λ x, f x = true) keys).
Proof.
  revert col. induction keys as [|k keys IH]; intros [|x col]; try done.
  intros [= Hlen]. rewrite fmap_cons. cbn [select]. destruct (f k) eqn:E.
  - rewrite filter_cons_True by done. simpl. by rewrite IH.
  - rewrite filter_cons_False by (by rewrite E). by apply IH.
Qed.

Lemma select_zip {B} mask col (col' : list B) :
  select mask (zip col col') = zip (select mask col) (select mask col').
Proof.
  revert col col'. induction mask as [|b mask IH]; intros [|x col] [|y col'];
    simpl; try done.
  - destruct b; simpl; [done | by destruct (select mask col)].
  - destruct b; simpl; by rewrite IH.
Qed.
End Select.

(** ** Counting by key *)

Lemma sum_list_with_ext {A} (f g : A → nat) l :
  (∀ x, f x = g x) → sum_list_with f l = sum_list_with g l.
Proof. intros H. induction l; simpl; [done|]. by rewrite H, IHl. Qed.

Lemma sum_list_with_add {A} (f g : A → nat) l :
  sum_list_with (λ x, f x + g x)%nat l
  = (sum_list_with f l + sum_list_with g l)%nat.
Proof. induction l; simpl; [done|]. rewrite IHl. lia. Qed.

Lemma sum_list_with_indicator `{EqDecision A} (K : list A) x :
  NoDup K → x ∈ K →
  sum_list_with (λ k, if decide (x = k) then 1 else 0)%nat K = 1%nat.
Proof.
  induction 1 as [|k K Hk _ IH]; [by intros ?%elem_of_nil|].
  intros [->|Hx]%elem_of_cons; simpl.
  - rewrite decide_True by done. f_equal.
    clear IH. induction K as [|k' K IH]; [done|]. simpl.
    apply not_elem_of_cons in Hk as [? ?]. rewrite decide_False by done.
    by apply IH.
  - rewrite decide_False by (by intros ->). by apply IH.
Qed.

(** Distinct keys that cover a list split it: the counts add up to its
    length. *)
Lemma sum_count_keys `{EqDecision A} (K l : list A) :
  NoDup K → (∀ x, x ∈ l → x ∈ K) →
  sum_list_with (λ k, length (filter (λ x, x = k) l)) K = length l.
Proof.
  intros HK. induction l as [|x l IH]; intros Hl.
  - clear. induction K as [|k K IHK]; simpl in *; done.
  - rewrite (sum_list_with_ext _
      (λ k, (if decide (x = k) then 1 else 0) + length (filter (λ x, x = k) l))%nat).
    + rewrite sum_list_with_add, sum_list_with_indicator, IH; try done.
      * intros y Hy. apply Hl. by right.
      * apply Hl. by left.
    + intros k. rewrite filter_cons. by destruct (decide (x = k)).
Qed.

(** Evaluates a result on a concrete input. *)
Ltac run_ok x E :=
  lazymatch goal with
  | |- ∃ _, ?r = Ok _ ∧ _ =>
      destruct r as [x|?] eqn:E;
      [ exists x; split; [reflexivity|]
      | exfalso;
        assert (is_ok r = true) as Hok by (vm_compute; reflexivity);
        rewrite E in Hok; discriminate Hok ]
  end.

(** ** The filter by year *)

Lemma filter_year_Ok df year sub :
  filter_year df year = Ok sub ↔
  ∃ years, df !! "Year" = Some years ∧
           sub = select ((λ c, cell_eq_int c year) <$> years) <$> df.
Proof.
  unfold filter_year, getitem. destruct (df !! "Year") as [years|]; simpl.
  - split; [intros [= <-]; eauto | by intros (? & [= <-] & ->)].
  - split; [done | by intros (? & ? & _)].
Qed.

(** X8: the filtered frame has the columns of the frame; all of them have as
    many rows as the Year column has cells equal to the year, and its Year
    column holds these cells. *)
Theorem filter_year_rows df year sub n years :
  n_rows df n → df !! "Year" = Some years → filter_year df year = Ok sub →
  dom sub = dom df ∧
  n_rows sub (length (filter (λ c, cell_eq_int c year = true) years)) ∧
  sub !! "Year" = Some (filter (λ c, cell_eq_int c year = true) years).
Proof.
  intros Hn Hy H. apply filter_year_Ok in H as (years' & Hy' & ->).
  rewrite Hy in Hy'. injection Hy' as <-. split_and!.
  - apply dom_fmap_L.
  - intros key col. rewrite lookup_fmap.
    destruct (df !! key) as [col'|] eqn:E; [|done]. intros [= <-].
    apply length_select_fmap. by rewrite (Hn _ _ Hy), (Hn _ _ E).
  - rewrite lookup_fmap, Hy. simpl. by rewrite select_fmap.
Qed.

Lemma filter_year_rows_witness :
  ∃ sub, filter_year (loaded two_years_csv) 2021 = Ok sub ∧ n_rows sub 2.
Proof.
  run_ok sub E.
  apply (filter_year_rows (loaded two_years_csv) 2021 sub 6
           [Int 2020; Int 2020; Int 2020; Int 2020; Int 2021; Int 2021]);
    [decide_run | vm_compute; reflexivity | exact E].
Defined.

(** X9: the filtered frame holds the rows of the year, whole and in their
    order: any of its columns, paired with its Year column, is the column
    of the frame paired with Year and filtered by the year. *)
Theorem filter_year_keeps_rows df year sub key col years :
  filter_year df year = Ok sub →
  df !! key = Some col → df !! "Year" = Some years →
  length col = length years →
  ∃ s ys, sub !! key = Some s ∧ sub !! "Year" = Some ys ∧
    zip s ys = filter (λ r, cell_eq_int r.2 year = true) (zip col years).
Proof.
  intros H Hcol Hy Hlen. apply filter_year_Ok in H as (years' & Hy' & ->).
  rewrite Hy in Hy'. injection Hy' as <-.
  eexists _, _. rewrite !lookup_fmap, Hcol, Hy. simpl.
  split_and!; try done.
  rewrite <- select_zip.
  rewrite <- (select_fmap (λ r : cell * cell, cell_eq_int r.2 year)).
  f_equal. rewrite <- (snd_zip col years) at 1 by lia.
  by rewrite <- list_fmap_compose.
Qed.

Lemma filter_year_keeps_rows_witness :
  ∃ sub, filter_year (loaded two_years_csv) 2021 = Ok sub ∧
    ∃ s ys, sub !! "Ticker" = Some s ∧ sub !! "Year" = Some ys ∧
      zip s ys = [(Str "^DJI", Int 2021); (Str "^GSPC", Int 2021)].
Proof.
  run_ok sub E.
  apply (filter_year_keeps_rows (loaded two_years_csv) 2021 sub "Ticker"
           [Str "^GSPC"; Str "^DJI"; Str "^DJI"; Str "^GSPC"; Str "^DJI";
            Str "^GSPC"]
           [Int 2020; Int 2020; Int 2020; Int 2020; Int 2021; Int 2021] E);
    vm_compute; reflexivity.
Defined.

(** ** The options of the select boxes *)

Lemma elem_of_unique col c : c ∈ unique col ↔ c ∈ col.
Proof.
  induction col as [|x col IH]; [done|]. simpl.
  rewrite !elem_of_cons, list_elem_of_filter, IH.
  destruct (decide (c = x)); naive_solver.
Qed.

Lemma NoDup_unique col : NoDup (unique col).
Proof.
  induction col as [|x col IH]; simpl; constructor.
  - rewrite list_elem_of_filter. naive_solver.
  - by apply list.NoDup_filter.
Qed.

Lemma sublist_unique col : unique col `sublist_of` col.
Proof.
  induction col as [|x col IH]; simpl; [constructor|].
  apply sublist_skip. etrans; [apply sublist_filter | done].
Qed.

(** A filter keeps the order of the elements it keeps. *)
Lemma filter_lookup_order {A} (P : A → Prop) `{∀ x, Decision (P x)}
    (l : list A) i j a b :
  filter P l !! i = Some a → filter P l !! j = Some b → (i < j)%nat →
  ∃ i' j', (i' < j')%nat ∧ l !! i' = Some a ∧ l !! j' = Some b ∧ P a ∧ P b.
Proof.
  revert i j. induction l as [|x l IH]; intros i j; [done|].
  rewrite filter_cons. destruct (decide (P x)) as [Hx|Hx].
  - destruct i as [|i], j as [|j]; simpl; try lia.
    + intros [= <-] Hb _.
      assert (b ∈ filter P l) as Hin by (by eapply list_elem_of_lookup_2).
      apply list_elem_of_filter in Hin as [Hb' Hin].
      apply list_elem_of_lookup_1 in Hin as [j' Hj'].
      exists 0%nat, (S j'). split_and!; [lia|done..].
    + intros Ha Hb Hij. destruct (IH i j Ha Hb) as (i' & j' & ? & ? & ? & ? & ?);
        [lia|]. exists (S i'), (S j'). split_and!; [lia|done..].
  - intros Ha Hb Hij. destruct (IH i j Ha Hb Hij) as (i' & j' & ? & ? & ? & ? & ?).
    exists (S i'), (S j'). split_and!; [lia|done..].
Qed.

(** [unique] lists the values in the order of their first occurrence. *)
Lemma unique_order col i j a b :
  unique col !! i = Some a → unique col !! j = Some b → (i < j)%nat →
  ∃ k, col !! k = Some a ∧ ∀ k', col !! k' = Some b → (k < k')%nat.
Proof.
  revert i j. induction col as [|x col IH]; intros i j; [done|].
  cbn [unique]. destruct i as [|i], j as [|j]; try lia.
  - intros [= <-] Hb _. exists 0%nat. split; [done|].
    assert (b ∈ filter (λ c', c' ≠ x) (unique col)) as Hin
      by (by eapply list_elem_of_lookup_2).
    apply list_elem_of_filter in Hin as [Hne _].
    intros [|k'] Hk'; [|lia]. by injection Hk' as ->.
  - cbn [lookup list_lookup]. intros Ha Hb Hij.
    destruct (filter_lookup_order _ _ _ _ _ _ Ha Hb) as (i' & j' & Hlt & Ha' & Hb' & _ & Hne);
      [lia|].
    destruct (IH i' j' Ha' Hb' Hlt) as (k & Hk & Hfirst).
    exists (S k). split; [done|].
    intros [|k'] Hk'; [by injection Hk' as ->|].
    apply Hfirst in Hk'. lia.
Qed.

(** X10: the options of a select box are the years of the frame, each once, in
    the order of the rows in which they first appear: an option that comes
    before another occurs in a row above every row of the other; the box
    opens on the year of the first row. *)
Theorem year_options_spec df years :
  df !! "Year" = Some years →
  ∃ opts, year_options df = Ok opts ∧
    NoDup opts ∧ (∀ c, c ∈ opts ↔ c ∈ years) ∧
    (∀ i j a b, opts !! i = Some a → opts !! j = Some b → (i < j)%nat →
       ∃ k, years !! k = Some a ∧
            ∀ k', years !! k' = Some b → (k < k')%nat) ∧
    opts `sublist_of` years ∧ head opts = head years.
Proof.
  intros H. exists (unique years). unfold year_options.
  rewrite (proj2 (getitem_Ok _ _ _) H). split_and!.
  - done.
  - apply NoDup_unique.
  - apply elem_of_unique.
  - apply unique_order.
  - apply sublist_unique.
  - by destruct years.
Qed.

Lemma year_options_spec_witness :
  ∃ opts, year_options (loaded two_years_csv) = Ok opts ∧
    NoDup opts ∧ head opts = Some (Int 2020).
Proof.
  destruct (year_options_spec (loaded two_years_csv)
              [Int 2020; Int 2020; Int 2020; Int 2020; Int 2021; Int 2021])
    as (opts & H & Hnd & _ & _ & _ & Hhd); [vm_compute; reflexivity|].
  exists opts. split_and!; [exact H | exact Hnd | exact Hhd].
Defined.

Lemma filter_ext_Forall {A} (P Q : A → Prop)
    `{∀ x, Decision (P x)} `{∀ x, Decision (Q x)} l :
  Forall (λ x, P x ↔ Q x) l → filter P l = filter Q l.
Proof.
  induction 1 as [|x l Hx _ IH]; [done|].
  rewrite !filter_cons, IH. destruct (decide (P x)), (decide (Q x)); naive_solver.
Qed.

Lemma sum_list_with_ext_Forall {A} (f g : A → nat) l :
  Forall (λ x, f x = g x) l → sum_list_with f l = sum_list_with g l.
Proof. induction 1 as [|x l Hx _ IH]; simpl; [done|]. by rewrite Hx, IH. Qed.

Lemma year_rows_count df years year :
  df !! "Year" = Some years →
  year_rows df year = length (filter (λ c, cell_eq_int c year = true) years).
Proof.
  intros H. unfold year_rows, filter_year.
  rewrite (proj2 (getitem_Ok _ _ _) H). simpl.
  by rewrite lookup_fmap, H, <- select_fmap.
Qed.

(** The Year column of a frame the load returned holds integers. *)
Lemma loaded_years parse csv df :
  load_data parse csv = Ok df →
  ∃ years, df !! "Year" = Some years ∧ Forall (λ c, ∃ y, c = Int y) years.
Proof.
  intros H. apply load_data_Ok in H as (d & Hd & ->).
  destruct (assemble_derived csv d) as (_ & _ & _ & _ & _ & _ & Ey & _).
  exists (d_year d). split; [done|].
  destruct Hd as (date & adj & opn & close & ticker & diff & ratio & Hd).
  destruct Hd as (_ & Hparse & _ & _ & _ & _ & _ & _ & _ & _ & _ & _ & _
                    & Hyear & Hmonth & Hnames & _).
  pose proof (dates_valid _ _ _ _ _ Hparse Hmonth Hnames) as Hvalid.
  apply Forall_lookup. intros i yc Hi.
  apply traverse_Ok in Hyear, Hparse.
  destruct (Forall2_lookup_r _ _ _ _ _ Hyear Hi) as (t & Ht & Hyc).
  destruct (Forall2_lookup_r _ _ _ _ _ Hparse Ht) as (c & Hc & Hpc).
  destruct (Forall_lookup_1 _ _ _ _ Hvalid Hc) as (y & m & dd & Hp & _).
  rewrite Hp in Hpc. injection Hpc as <-. simpl in Hyc. injection Hyc as <-.
  by exists y.
Qed.

(** X11: every row of the file is shown under exactly one option of the select
    box: over the options, the rows of the filtered frames add up to the
    rows of the file. *)
Theorem year_options_partition parse csv df n opts :
  n_rows csv n → load_data parse csv = Ok df → year_options df = Ok opts →
  sum_list_with (λ c, year_rows df (option_year c)) opts = n.
Proof.
  intros Hn Hload Hopts.
  destruct (loaded_years _ _ _ Hload) as (years & Hy & Hint).
  pose proof Hload as Hl. apply load_data_Ok in Hl as (d & Hd & Hdf).
  assert (length years = n) as Hlen.
  { pose proof (derived_lengths _ _ _ _ Hn Hd) as Hl.
    do 6 apply Forall_cons_1 in Hl as [_ Hl]. apply Forall_cons_1 in Hl as [Hl _].
    destruct (assemble_derived csv d) as (_ & _ & _ & _ & _ & _ & Ey & _).
    rewrite Hdf, Ey in Hy. by injection Hy as <-. }
  unfold year_options in Hopts. rewrite (proj2 (getitem_Ok _ _ _) Hy) in Hopts.
  injection Hopts as <-.
  rewrite (sum_list_with_ext_Forall _
             (λ k, length (filter (λ x, x = k) years))).
  - rewrite sum_count_keys; [done | apply NoDup_unique |].
    intros x. by rewrite elem_of_unique.
  - apply list.Forall_forall. intros c Hc.
    apply (proj1 (elem_of_unique _ _)) in Hc.
    rewrite (year_rows_count _ _ _ Hy).
    destruct (proj1 (list.Forall_forall _ _) Hint c Hc) as [y ->]. simpl.
    f_equal. apply filter_ext_Forall.
    eapply Forall_impl; [|exact Hint]. intros c' [y' ->]. simpl.
    rewrite bool_decide_eq_true. naive_solver.
Qed.

Lemma year_options_partition_witness :
  sum_list_with (λ c, year_rows (loaded two_years_csv) (option_year c))
                [Int 2020; Int 2021] = 6%nat.
Proof.
  apply (year_options_partition iso_datetime two_years_csv
           (loaded two_years_csv) 6 [Int 2020; Int 2021]).
  - decide_run.
  - apply loaded_Ok. vm_compute; reflexivity.
  - vm_compute; reflexivity.
Defined.

(** ** Groups *)

Lemma elem_of_group_keys keys t : t ∈ group_keys keys ↔ Str t ∈ keys.
Proof.
  unfold group_keys.
  rewrite sorting.merge_sort_Permutation, elem_of_remove_dups, list_elem_of_omap.
  split.
  - intros ([] & Hx & Hs); simpl in Hs; try done. by injection Hs as ->.
  - intros H. by exists (Str t).
Qed.

Lemma NoDup_group_keys keys : NoDup (group_keys keys).
Proof.
  unfold group_keys. rewrite sorting.merge_sort_Permutation.
  apply NoDup_remove_dups.
Qed.

Lemma sorted_group_keys keys :
  Sorted.StronglySorted String.le (group_keys keys).
Proof. apply sorting.StronglySorted_merge_sort; apply _. Qed.

Lemma filter_all {A} (P : A → Prop) `{∀ x, Decision (P x)} l :
  Forall P l → filter P l = l.
Proof.
  induction 1 as [|x l Hx _ IH]; [done|].
  by rewrite filter_cons_True, IH.
Qed.

(** ** update_plot *)

(** The rows of one ticker in a year, counted in the filtered frame and in
    the frame. *)
Lemma value_count_rows tickers years dirs year t label :
  length tickers = length years → length years = length dirs →
  Forall (λ c, ∃ y, c = Int y) years →
  Forall (λ c, ∃ b, c = Int b) dirs →
  let mask := (λ c, cell_eq_int c year) <$> years in
  value_count (select mask tickers) (select mask dirs) t label
  = length (filter (λ r, r = (Str t, Int year, Int label))
                   (zip (zip tickers years) dirs)).
Proof.
  intros H1 H2 Hy Hd. cbv zeta. unfold value_count, group_mask.
  revert tickers dirs H1 H2 Hd.
  induction Hy as [|yc years [y ->] _ IH]; intros [|c tickers] [|dc dirs];
    try done.
  intros [= H1] [= H2] Hd. apply Forall_cons_1 in Hd as [[b ->] Hd].
  specialize (IH tickers dirs H1 H2 Hd).
  rewrite fmap_cons. cbn [select cell_eq_int zip zip_with].
  rewrite filter_cons.
  destruct (decide (y = year)) as [->|Hne].
  - rewrite bool_decide_eq_true_2 by done. rewrite fmap_cons. cbn [select].
    destruct (decide (c = Str t)) as [->|Hc].
    + rewrite bool_decide_eq_true_2 by done. rewrite filter_cons.
      cbn [cell_eq_int].
      destruct (decide (b = label)) as [->|Hb].
      * rewrite bool_decide_eq_true_2 by done.
        rewrite decide_True by done. rewrite decide_True by done.
        simpl. by rewrite IH.
      * rewrite bool_decide_eq_false_2 by done.
        rewrite decide_False by done.
        rewrite decide_False by congruence. done.
    + rewrite bool_decide_eq_false_2 by done.
      rewrite decide_False by congruence. done.
  - rewrite bool_decide_eq_false_2 by done.
    rewrite decide_False by congruence. done.
Qed.

Lemma elem_of_select_year (x : cell) tickers years year :
  length tickers = length years →
  Forall (λ c, ∃ y, c = Int y) years →
  x ∈ select ((λ c, cell_eq_int c year) <$> years) tickers
  ↔ (x, Int year) ∈ zip tickers years.
Proof.
  intros H1 Hy. revert tickers H1.
  induction Hy as [|yc years [y ->] _ IH]; intros [|c tickers]; try done.
  - simpl. by rewrite !elem_of_nil.
  - intros [= H1]. rewrite fmap_cons. cbn [select cell_eq_int zip zip_with].
    rewrite elem_of_cons. destruct (decide (y = year)) as [->|Hne].
    + rewrite bool_decide_eq_true_2 by done. rewrite elem_of_cons, IH by done.
      naive_solver.
    + rewrite bool_decide_eq_false_2 by done. rewrite IH by done.
      naive_solver.
Qed.

Lemma select_group_nonempty (tickers values : list cell) t :
  length tickers = length values → Str t ∈ tickers →
  select (group_mask tickers t) values ≠ [].
Proof.
  intros Hlen Ht Hnil. apply (f_equal length) in Hnil. unfold group_mask in Hnil.
  rewrite length_select_fmap in Hnil by done.
  assert (Str t ∈ filter (λ x, bool_decide (x = Str t) = true) tickers) as Hin.
  { apply list_elem_of_filter. split; [|done]. by apply bool_decide_eq_true_2. }
  destruct (filter _ tickers); [by apply elem_of_nil in Hin | done].
Qed.

Lemma counted_index_all tickers values :
  length tickers = length values →
  Forall (λ c, is_missing c = false) values →
  counted_index tickers values = group_keys tickers.
Proof.
  intros Hlen Hv. unfold counted_index. apply filter_all.
  apply list.Forall_forall. intros t Ht%elem_of_group_keys.
  pose proof (select_group_nonempty _ _ _ Hlen Ht) as Hne.
  pose proof (Forall_select _ (group_mask tickers t) _ Hv) as Hall.
  destruct (select (group_mask tickers t) values) as [|x l]; [done|].
  apply Exists_cons_hd. by apply Forall_cons_1 in Hall as [? _].
Qed.

Lemma sum_list_fmap {A} (f : A → nat) l :
  sum_list (f <$> l) = sum_list_with f l.
Proof. induction l; simpl; [done|]. f_equal. apply IHl. Qed.

Lemma sum_list_with_fmap {A B} (f : B → nat) (g : A → B) l :
  sum_list_with f (g <$> l) = sum_list_with (λ x, f (g x)) l.
Proof. induction l; simpl; [done|]. f_equal. apply IHl. Qed.

Lemma sum_list_with_Forall2 {A B} (f : A → nat) (g : B → nat) l k :
  Forall2 (λ x y, f x = g y) l k → sum_list_with f l = sum_list_with g k.
Proof. induction 1 as [|x y l k Hxy _ IH]; simpl; [done|]. by rewrite Hxy, IH. Qed.

Lemma count_bits values :
  Forall (λ c, c = Int 0 ∨ c = Int 1) values →
  (length (filter (λ c, cell_eq_int c 0 = true) values)
   + length (filter (λ c, cell_eq_int c 1 = true) values))%nat
  = length values.
Proof.
  induction 1 as [|c values [->| ->] _ IH]; [done| |].
  - rewrite filter_cons_True by done. rewrite filter_cons_False by done.
    simpl. by rewrite IH.
  - rewrite filter_cons_False by done. rewrite filter_cons_True by done.
    simpl. rewrite <- IH. lia.
Qed.

(** The two bars of a ticker count its rows. *)
Lemma value_count_bits (tickers values : list cell) t :
  length tickers = length values →
  Forall (λ c, c = Int 0 ∨ c = Int 1) values →
  (value_count tickers values t 0 + value_count tickers values t 1)%nat
  = length (filter (λ c, c = Str t) tickers).
Proof.
  intros Hlen Hv. unfold value_count.
  rewrite count_bits by (by apply Forall_select).
  unfold group_mask. rewrite length_select_fmap by done.
  f_equal. apply list_filter_iff. intros c. apply bool_decide_eq_true.
Qed.

(** The groups of a column of strings split it. *)
Lemma sum_group_counts keys :
  string_keys keys →
  sum_list_with (λ t, length (filter (λ c, c = Str t) keys)) (group_keys keys)
  = length keys.
Proof.
  intros Hk.
  rewrite <- (sum_count_keys (Str <$> group_keys keys) keys).
  - by rewrite sum_list_with_fmap.
  - apply NoDup_fmap_2; [by intros ?? [= ->] | apply NoDup_group_keys].
  - intros c Hc. destruct (proj1 (list.Forall_forall _ _) Hk c Hc) as [s ->].
    apply list_elem_of_fmap. exists s. split; [done|].
    by apply elem_of_group_keys.
Qed.

(** The bars of a frame count every row once. *)
Lemma counted_total (tickers values : list cell) zeros ones :
  length tickers = length values →
  string_keys tickers →
  Forall (λ c, c = Int 0 ∨ c = Int 1) values →
  counted_column tickers values 0 = Ok zeros →
  counted_column tickers values 1 = Ok ones →
  (sum_list zeros + sum_list ones)%nat = length tickers.
Proof.
  intros Hlen Hk Hv. unfold counted_column.
  rewrite counted_index_all;
    [|done | eapply Forall_impl; [|exact Hv]; by intros c [->| ->]].
  do 2 (case_bool_decide; [|done]). intros [= <-] [= <-].
  rewrite !sum_list_fmap, <- sum_list_with_add.
  rewrite <- (sum_group_counts tickers Hk).
  apply sum_list_with_ext. intros t. by apply value_count_bits.
Qed.

Section Bars.
Variables (tickers years dirs : list cell) (year : Z).
Hypothesis Hlen1 : length tickers = length years.
Hypothesis Hlen2 : length years = length dirs.
Hypothesis Hyears : Forall (λ c, ∃ y, c = Int y) years.
Hypothesis Hdirs : Forall (λ c, ∃ b, c = Int b) dirs.

Let mask := (λ c, cell_eq_int c year) <$> years.
Let rows := zip (zip tickers years) dirs.
Let count t label := length (filter (λ r, r = (Str t, Int year, Int label)) rows).

Lemma year_lengths :
  length (select mask tickers) = length (select mask dirs).
Proof.
  unfold mask. rewrite !length_select_fmap; [done | by rewrite <- Hlen2 | done].
Qed.

Lemma year_values : Forall (λ c, is_missing c = false) (select mask dirs).
Proof.
  apply Forall_select. eapply Forall_impl; [|exact Hdirs]. by intros c [b ->].
Qed.

Lemma year_index t :
  t ∈ group_keys (select mask tickers) ↔ (Str t, Int year) ∈ zip tickers years.
Proof. rewrite elem_of_group_keys. by apply elem_of_select_year. Qed.

Lemma counted_column_Ok label :
  (∃ t, (Str t, Int year, Int label) ∈ rows) →
  counted_column (select mask tickers) (select mask dirs) label
  = Ok ((λ t, count t label) <$> group_keys (select mask tickers)).
Proof.
  intros [t Ht]. unfold counted_column.
  rewrite (counted_index_all _ _ year_lengths year_values).
  rewrite bool_decide_eq_true_2.
  - f_equal. apply list_fmap_ext. intros _ t' _.
    by apply value_count_rows.
  - apply list.Exists_exists. exists t. split.
    + apply year_index. by apply elem_of_zip_l in Ht.
    + unfold mask. rewrite value_count_rows by done.
      assert ((Str t, Int year, Int label)
              ∈ filter (λ r, r = (Str t, Int year, Int label)) rows) as Hin
        by (by apply list_elem_of_filter).
      fold rows. destruct (filter _ rows); [by apply elem_of_nil in Hin | simpl; lia].
Qed.

Lemma counted_column_Raise label :
  ¬ (∃ t, (Str t, Int year, Int label) ∈ rows) →
  counted_column (select mask tickers) (select mask dirs) label
  = Raise (KeyError (pretty.pretty label)).
Proof.
  intros Hno. unfold counted_column.
  rewrite bool_decide_eq_false_2; [done|].
  intros (t & _ & Hpos)%list.Exists_exists. apply Hno. exists t.
  unfold mask in Hpos. rewrite value_count_rows in Hpos by done.
  fold rows in Hpos.
  destruct (filter _ rows) as [|r l] eqn:E; [simpl in Hpos; lia|].
  assert (r ∈ filter (λ r, r = (Str t, Int year, Int label)) rows) as Hr
    by (rewrite E; left).
  by apply list_elem_of_filter in Hr as [-> ?].
Qed.

Lemma counted_column_inv label col :
  counted_column (select mask tickers) (select mask dirs) label = Ok col →
  col = (λ t, count t label) <$> group_keys (select mask tickers).
Proof.
  unfold counted_column.
  rewrite (counted_index_all _ _ year_lengths year_values).
  case_bool_decide; [|done]. intros [= <-].
  apply list_fmap_ext. intros _ t' _. by apply value_count_rows.
Qed.
End Bars.

(** The columns of a returned frame that the charts read. *)
Lemma loaded_chart_columns parse csv df n :
  n_rows csv n → load_data parse csv = Ok df →
  ∃ tickers years dirs,
    csv !! "Ticker" = Some tickers ∧ df !! "Ticker" = Some tickers ∧
    df !! "Year" = Some years ∧ df !! "Price_Change_Direction" = Some dirs ∧
    length tickers = n ∧ length years = n ∧ length dirs = n ∧
    Forall (λ c, ∃ y, c = Int y) years ∧
    Forall (λ c, c = Int 0 ∨ c = Int 1) dirs.
Proof.
  intros Hn Hload.
  destruct (loaded_years _ _ _ Hload) as (years & Hy & Hint).
  apply load_data_Ok in Hload as (d & Hd & ->).
  pose proof (derived_lengths _ _ _ _ Hn Hd) as Hl.
  destruct (assemble_derived csv d) as (_ & _ & Edir & _ & _ & _ & Ey & _).
  rewrite Ey in Hy. injection Hy as <-.
  do 2 apply Forall_cons_1 in Hl as [_ Hl]. apply Forall_cons_1 in Hl as [Hl1 Hl].
  do 3 apply Forall_cons_1 in Hl as [_ Hl]. apply Forall_cons_1 in Hl as [Hl2 _].
  destruct Hd as (date & adj & opn & close & ticker & diff & ratio & Hd).
  destruct Hd as (_ & _ & _ & _ & _ & _ & Hdir & _ & _ & _ & _ & _ & _
                    & _ & _ & _ & Hticker & _).
  exists ticker, (d_year d), (d_change_dir d). split_and!; try done.
  - by frame_lookup.
  - by apply Hn in Hticker.
  - apply Forall_lookup. intros i c Hi. apply traverse_Ok in Hdir.
    destruct (Forall2_lookup_r _ _ _ _ _ Hdir Hi) as (x & _ & Hx).
    unfold direction in Hx. bind_inv Hx. injection Hx as <-.
    destruct (num_gtb _ _); auto.
Qed.

Lemma update_plot_bind df year tickers years dirs :
  df !! "Ticker" = Some tickers → df !! "Year" = Some years →
  df !! "Price_Change_Direction" = Some dirs →
  update_plot df year =
    (let mask := (λ c, cell_eq_int c year) <$> years in
     zeros ← counted_column (select mask tickers) (select mask dirs) 0;
     ones ← counted_column (select mask tickers) (select mask dirs) 1;
     Ok (counted_index (select mask tickers) (select mask dirs), zeros, ones)).
Proof.
  intros Ht Hy Hd. unfold update_plot, filter_year.
  rewrite (proj2 (getitem_Ok _ _ _) Hy). cbn [mbind result_bind].
  unfold getitem. rewrite !lookup_fmap, Ht, Hd. done.
Qed.

Lemma column_lookup df key :
  is_Some (df !! key) → df !! key = Some (column df key).
Proof. unfold column. by intros [col ->]. Qed.

Lemma drawn_Ok csv :
  is_ok (bokeh_lines category10 (loaded csv)) = true →
  bokeh_lines category10 (loaded csv) = Ok (drawn csv).
Proof. unfold drawn. by destruct (bokeh_lines category10 (loaded csv)). Qed.

Lemma pretty_labels : pretty.pretty 0 = "0" ∧ pretty.pretty 1 = "1".
Proof. split; vm_compute; reflexivity. Qed.

Lemma Int_bits dirs :
  Forall (λ c, c = Int 0 ∨ c = Int 1) dirs → Forall (λ c, ∃ b, c = Int b) dirs.
Proof. intros H. eapply Forall_impl; [|exact H]. intros c [->| ->]; eauto. Qed.

(** X12: on a loaded frame with string tickers and a year of the select
    box, [update_plot] raises KeyError 0 when no row of the year has the
    direction 0 (a year of profit days only), KeyError 1 when some row has
    the direction 0 and none the direction 1, and draws the bars when the
    year has both. *)
Theorem update_plot_outcome parse csv df n year :
  n_rows csv n → load_data parse csv = Ok df →
  string_keys (column csv "Ticker") →
  Int year ∈ column df "Year" →
  let has label := ∃ t, (Str t, Int year, Int label) ∈ bar_rows df in
  (¬ has 0 → update_plot df year = Raise (KeyError "0")) ∧
  (has 0 → ¬ has 1 → update_plot df year = Raise (KeyError "1")) ∧
  (has 0 → has 1 → is_ok (update_plot df year) = true).
Proof.
  intros Hn Hload _ _.
  destruct (loaded_chart_columns _ _ _ _ Hn Hload)
    as (tickers & years & dirs & _ & Ht & Hy & Hd & L1 & L2 & L3 & Hint & Hbit).
  apply Int_bits in Hbit.
  assert (length tickers = length years) as Hl1 by congruence.
  assert (length years = length dirs) as Hl2 by congruence.
  unfold bar_rows, column. rewrite Ht, Hy, Hd. cbn [default]. cbv zeta.
  rewrite (update_plot_bind _ _ _ _ _ Ht Hy Hd). cbv zeta.
  destruct pretty_labels as [P0 P1]. split_and!.
  - intros H0.
    rewrite (counted_column_Raise _ _ _ _ Hl1 Hl2 Hint Hbit 0 H0).
    by rewrite P0.
  - intros H0 H1.
    rewrite (counted_column_Ok _ _ _ _ Hl1 Hl2 Hint Hbit 0 H0).
    rewrite (counted_column_Raise _ _ _ _ Hl1 Hl2 Hint Hbit 1 H1).
    by rewrite P1.
  - intros H0 H1.
    rewrite (counted_column_Ok _ _ _ _ Hl1 Hl2 Hint Hbit 0 H0).
    rewrite (counted_column_Ok _ _ _ _ Hl1 Hl2 Hint Hbit 1 H1).
    done.
Qed.

Lemma update_plot_outcome_witness :
  update_plot (loaded two_years_csv) 2021 = Raise (KeyError "0").
Proof.
  apply (update_plot_outcome iso_datetime two_years_csv
           (loaded two_years_csv) 6 2021).
  - decide_run.
  - apply loaded_Ok. vm_compute; reflexivity.
  - vm_compute. repeat (constructor; [by eexists|]). constructor.
  - decide_run.
  - intros [t Ht]. vm_compute in Ht.
    repeat (apply elem_of_cons in Ht as [Ht|Ht]; [discriminate Ht|]).
    by apply elem_of_nil in Ht.
Defined.

(** X13: the bars [update_plot] draws on a loaded frame with string
    tickers: the tickers are those with a row in the year, sorted and each
    once; the bar of losses of a ticker counts its rows of the year with
    direction 0 and the bar of profits those with direction 1; together the
    bars count every row of the year once. *)
Theorem update_plot_bars parse csv df n year index zeros ones :
  n_rows csv n → load_data parse csv = Ok df →
  string_keys (column csv "Ticker") →
  update_plot df year = Ok (index, zeros, ones) →
  Sorted.StronglySorted String.le index ∧ NoDup index ∧
  (∀ t, t ∈ index ↔
        (Str t, Int year) ∈ zip (column df "Ticker") (column df "Year")) ∧
  zeros = (λ t, length (filter (λ r, r = (Str t, Int year, Int 0))
                               (bar_rows df))) <$> index ∧
  ones = (λ t, length (filter (λ r, r = (Str t, Int year, Int 1))
                              (bar_rows df))) <$> index ∧
  (sum_list zeros + sum_list ones)%nat = year_rows df year.
Proof.
  intros Hn Hload Hk H.
  destruct (loaded_chart_columns _ _ _ _ Hn Hload)
    as (tickers & years & dirs & Hc & Ht & Hy & Hd & L1 & L2 & L3 & Hint & Hbit).
  pose proof (Int_bits _ Hbit) as Hdir.
  assert (length tickers = length years) as Hl1 by congruence.
  assert (length years = length dirs) as Hl2 by congruence.
  unfold column in Hk. rewrite Hc in Hk. cbn [default] in Hk.
  rewrite (year_rows_count _ _ _ Hy).
  unfold bar_rows, column. rewrite Ht, Hy, Hd. cbn [default].
  rewrite (update_plot_bind _ _ _ _ _ Ht Hy Hd) in H. cbv zeta in H.
  bind_inv H. bind_inv H. injection H as <- <- <-.
  pose proof (year_lengths _ _ _ year Hl1 Hl2) as Hlen.
  pose proof (counted_total _ _ _ _ Hlen (Forall_select _ _ _ Hk)
                (Forall_select _ _ _ Hbit) E E0) as Htotal.
  apply (counted_column_inv _ _ _ _ Hl1 Hl2 Hint Hdir) in E, E0.
  rewrite (counted_index_all _ _ Hlen (year_values _ _ _ Hdir)).
  split_and!; try done.
  - apply sorted_group_keys.
  - apply NoDup_group_keys.
  - intros t. by apply year_index.
  - rewrite Htotal. by apply length_select_fmap.
Qed.

Lemma update_plot_bars_witness :
  NoDup ["^DJI"; "^GSPC"] ∧
  (sum_list [1; 1] + sum_list [1; 1])%nat = year_rows (loaded two_years_csv) 2020.
Proof.
  destruct (update_plot_bars iso_datetime two_years_csv (loaded two_years_csv)
              6 2020 ["^DJI"; "^GSPC"] [1; 1]%nat [1; 1]%nat)
    as (_ & Hnd & _ & _ & _ & Htotal).
  - decide_run.
  - apply loaded_Ok. vm_compute; reflexivity.
  - vm_compute. repeat (constructor; [by eexists|]). constructor.
  - vm_compute; reflexivity.
  - split; [exact Hnd | exact Htotal].
Defined.

(** ** create_bokeh_plot *)

Section BokehFacts.
Variable colors : list string.
Hypothesis Hcolors : colors ≠ [].

Lemma palette_lookup (i : nat) :
  py_getitem colors (Z.of_nat i `mod` Z.of_nat (length colors))
  = match colors !! (i `mod` length colors)%nat with
    | Some c => Ok c
    | None => Raise IndexError
    end
  ∧ is_Some (colors !! (i `mod` length colors)%nat).
Proof.
  assert (0 < length colors)%nat as Hpos by (destruct colors; simpl; [done|lia]).
  assert (i `mod` length colors < length colors)%nat as Hlt
    by (apply Nat.mod_upper_bound; lia).
  split; [|by apply lookup_lt_is_Some].
  unfold py_getitem. rewrite <- Nat2Z.inj_mod.
  destruct (Z.ltb_spec (Z.of_nat (i `mod` length colors)) 0) as [?|_]; [lia|].
  destruct (Z.leb_spec 0 (Z.of_nat (i `mod` length colors))) as [_|?]; [|lia].
  destruct (Z.ltb_spec (Z.of_nat (i `mod` length colors))
              (Z.of_nat (length colors))) as [_|?]; [|lia].
  simpl. by rewrite Nat2Z.id.
Qed.

Lemma bokeh_line_Ok df tickers dates closes i t :
  df !! "Date" = Some dates → df !! "Adj Close" = Some closes →
  ∃ c, colors !! (i `mod` length colors)%nat = Some c ∧
    bokeh_line colors df tickers i t
    = Ok (Glyph (legend_label t) c (select (group_mask tickers t) dates)
                (select (group_mask tickers t) closes)).
Proof.
  intros Hd Hc. destruct (palette_lookup i) as [Hp [c Hi]].
  exists c. split; [done|]. unfold bokeh_line, getitem.
  rewrite !lookup_fmap, Hd, Hc. cbn. rewrite Hp, Hi. done.
Qed.

Lemma bokeh_lines_Forall2 df tickers dates closes :
  df !! "Ticker" = Some tickers →
  df !! "Date" = Some dates → df !! "Adj Close" = Some closes →
  ∃ lines, bokeh_lines colors df = Ok lines ∧
    Forall2 (λ p g,
               g_legend g = legend_label p.2 ∧
               colors !! (p.1 `mod` length colors)%nat = Some (g_color g) ∧
               g_date g = select (group_mask tickers p.2) dates ∧
               g_close g = select (group_mask tickers p.2) closes)
            (zip (seq 0 (length (group_keys tickers))) (group_keys tickers))
            lines.
Proof.
  intros Ht Hd Hc. unfold bokeh_lines.
  rewrite (proj2 (getitem_Ok _ _ _) Ht). cbn [mbind result_bind]. cbv zeta.
  destruct (traverse_total (λ p, bokeh_line colors df tickers p.1 p.2)
              (zip (seq 0 (length (group_keys tickers))) (group_keys tickers)))
    as [lines Hl].
  { apply list.Forall_forall. intros [i t] _.
    destruct (bokeh_line_Ok df tickers dates closes i t Hd Hc) as (c & _ & H).
    by eexists. }
  exists lines. split; [done|]. apply traverse_Ok in Hl.
  eapply list.Forall2_impl; [exact Hl|]. intros [i t] g Hg. cbn [fst snd] in *.
  destruct (bokeh_line_Ok df tickers dates closes i t Hd Hc) as (c & Hi & H).
  rewrite H in Hg. injection Hg as <-. by cbn.
Qed.
End BokehFacts.

Lemma lookup_enumerate {A} (l : list A) i x :
  l !! i = Some x → zip (seq 0 (length l)) l !! i = Some (i, x).
Proof.
  intros H. apply lookup_zip_with_Some. exists i, x. split_and!; [done| |done].
  apply lookup_seq. split; [done|]. by eapply lookup_lt_Some.
Qed.

(** X14: on a frame whose tickers are strings, the loop of
    [create_bokeh_plot] draws one line per ticker of the frame, the
    tickers taken once each in sorted order, whatever their number: line
    [i] has the legend of ticker [i], the colour [i mod len(colors)] of the
    palette and the Date and Adj Close cells of the rows of the ticker. *)
Theorem bokeh_lines_spec colors df tickers dates closes :
  colors ≠ [] →
  df !! "Ticker" = Some tickers → string_keys tickers →
  df !! "Date" = Some dates → df !! "Adj Close" = Some closes →
  ∃ lines names, bokeh_lines colors df = Ok lines ∧
    Sorted.StronglySorted String.le names ∧ NoDup names ∧
    (∀ c, c ∈ tickers ↔ ∃ t, c = Str t ∧ t ∈ names) ∧
    length lines = length names ∧
    ∀ i t, names !! i = Some t →
      ∃ g, lines !! i = Some g ∧
        g_legend g = legend_label t ∧
        colors !! (i `mod` length colors)%nat = Some (g_color g) ∧
        g_date g = select (group_mask tickers t) dates ∧
        g_close g = select (group_mask tickers t) closes.
Proof.
  intros Hne Ht Hk Hd Hc.
  destruct (bokeh_lines_Forall2 colors Hne df _ _ _ Ht Hd Hc) as (lines & H & HF).
  exists lines, (group_keys tickers). split_and!.
  - done.
  - apply sorted_group_keys.
  - apply NoDup_group_keys.
  - intros c. split.
    + intros Hin. destruct (proj1 (list.Forall_forall _ _) Hk c Hin) as [t ->].
      exists t. split; [done|]. by apply elem_of_group_keys.
    + intros (t & -> & Hin). by apply elem_of_group_keys.
  - apply Forall2_length in HF. rewrite <- HF, length_zip, length_seq. lia.
  - intros i t Hi. apply lookup_enumerate in Hi.
    destruct (Forall2_lookup_l _ _ _ _ _ HF Hi) as (g & Hg & Hspec).
    by exists g.
Qed.

Lemma bokeh_lines_spec_witness :
  ∃ lines (names : list string),
    bokeh_lines category10 (loaded twelve_tickers_csv) = Ok lines ∧
    NoDup names ∧ length lines = length names.
Proof.
  destruct (bokeh_lines_spec category10 (loaded twelve_tickers_csv)
              (column (loaded twelve_tickers_csv) "Ticker")
              (column (loaded twelve_tickers_csv) "Date")
              (column (loaded twelve_tickers_csv) "Adj Close"))
    as (lines & names & H & _ & Hnd & _ & Hlen & _).
  - discriminate.
  - apply column_lookup. decide_run.
  - vm_compute. repeat (constructor; [by eexists|]). constructor.
  - apply column_lookup. decide_run.
  - apply column_lookup. decide_run.
  - exists lines, names. split_and!; [exact H | exact Hnd | exact Hlen].
Defined.

(** X15: two lines have the same colour exactly when their ranks are equal
    modulo the size of the palette: past ten tickers colours repeat. *)
Theorem bokeh_colors_repeat colors df lines i j gi gj :
  colors ≠ [] → NoDup colors →
  is_Some (df !! "Date") → is_Some (df !! "Adj Close") →
  bokeh_lines colors df = Ok lines →
  lines !! i = Some gi → lines !! j = Some gj →
  g_color gi = g_color gj ↔ (i `mod` length colors = j `mod` length colors)%nat.
Proof.
  intros Hne Hnd [dates Hd] [closes Hc] H Hi Hj.
  assert (∃ tickers, df !! "Ticker" = Some tickers) as [tickers Ht].
  { unfold bokeh_lines in H. bind_inv H. apply getitem_Ok in E. eauto. }
  destruct (bokeh_lines_Forall2 colors Hne df _ _ _ Ht Hd Hc) as (lines' & H' & HF).
  rewrite H in H'. injection H' as <-.
  destruct (Forall2_lookup_r _ _ _ _ _ HF Hi) as ([i' ti] & Hpi & _ & Hci & _).
  destruct (Forall2_lookup_r _ _ _ _ _ HF Hj) as ([j' tj] & Hpj & _ & Hcj & _).
  apply lookup_zip_with_Some in Hpi as (? & ? & [= <- <-] & Hsi & _).
  apply lookup_zip_with_Some in Hpj as (? & ? & [= <- <-] & Hsj & _).
  apply lookup_seq in Hsi as [-> _]. apply lookup_seq in Hsj as [-> _].
  cbn [fst] in *. change (0 + i)%nat with i in Hci.
  change (0 + j)%nat with j in Hcj. split.
  - intros Heq. rewrite Heq in Hci. by eapply NoDup_lookup.
  - intros Heq. rewrite Heq in Hci. congruence.
Qed.

Lemma bokeh_colors_repeat_witness :
  ∃ gi gj, drawn twelve_tickers_csv !! 0%nat = Some gi ∧
    drawn twelve_tickers_csv !! 10%nat = Some gj ∧ g_color gi = g_color gj.
Proof.
  assert (length (drawn twelve_tickers_csv) = 12%nat) as Hlen
    by (vm_compute; reflexivity).
  destruct (lookup_lt_is_Some_2 (drawn twelve_tickers_csv) 0) as [gi Hi];
    [rewrite Hlen; lia|].
  destruct (lookup_lt_is_Some_2 (drawn twelve_tickers_csv) 10) as [gj Hj];
    [rewrite Hlen; lia|].
  exists gi, gj. split; [exact Hi|]. split; [exact Hj|].
  apply (bokeh_colors_repeat category10 (loaded twelve_tickers_csv)
           (drawn twelve_tickers_csv) 0 10 gi gj).
  - discriminate.
  - decide_run.
  - decide_run.
  - decide_run.
  - apply drawn_Ok. vm_compute; reflexivity.
  - exact Hi.
  - exact Hj.
  - reflexivity.
Defined.

(** X16: with string tickers the lines split the rows of the frame: each row
    is
    on exactly one line. *)
Theorem bokeh_lines_cover colors df n tickers lines :
  colors ≠ [] → n_rows df n →
  df !! "Ticker" = Some tickers → string_keys tickers →
  is_Some (df !! "Date") → is_Some (df !! "Adj Close") →
  bokeh_lines colors df = Ok lines →
  sum_list_with (λ g, length (g_date g)) lines = n ∧
  sum_list_with (λ g, length (g_close g)) lines = n.
Proof.
  intros Hne Hn Ht Hk [dates Hd] [closes Hc] H.
  destruct (bokeh_lines_Forall2 colors Hne df _ _ _ Ht Hd Hc) as (lines' & H' & HF).
  rewrite H in H'. injection H' as <-.
  pose proof (Hn _ _ Ht) as Lt. pose proof (Hn _ _ Hd) as Ld.
  pose proof (Hn _ _ Hc) as Lc.
  assert (∀ (col : list cell) (f : glyph → list cell),
            length col = n →
            Forall2 (λ (p : nat * string) g,
                       f g = select (group_mask tickers p.2) col)
                    (zip (seq 0 (length (group_keys tickers)))
                         (group_keys tickers)) lines →
            sum_list_with (λ g, length (f g)) lines = n) as Hsum.
  { intros col f Hlen HF'. rewrite <- Lt, <- (sum_group_counts tickers Hk).
    rewrite <- (sum_list_with_Forall2
                  (λ p : nat * string,
                     length (select (group_mask tickers p.2) col))
                  (λ g, length (f g)) _ _)
      by (eapply list.Forall2_impl; [exact HF'|]; by intros p g ->).
    rewrite <- (sum_list_with_fmap
                  (λ t, length (select (group_mask tickers t) col)) snd).
    rewrite snd_zip by (rewrite length_seq; lia).
    apply sum_list_with_ext. intros t.
    unfold group_mask. rewrite length_select_fmap by congruence.
    f_equal. apply list_filter_iff. intros c. apply bool_decide_eq_true. }
  split.
  - apply (Hsum dates g_date Ld).
    eapply list.Forall2_impl; [exact HF|]. by intros p g (_ & _ & ? & _).
  - apply (Hsum closes g_close Lc).
    eapply list.Forall2_impl; [exact HF|]. by intros p g (_ & _ & _ & ?).
Qed.

Lemma bokeh_lines_cover_witness :
  sum_list_with (λ g, length (g_date g)) (drawn twelve_tickers_csv) = 12%nat ∧
  sum_list_with (λ g, length (g_close g)) (drawn twelve_tickers_csv) = 12%nat.
Proof.
  apply (bokeh_lines_cover category10 (loaded twelve_tickers_csv) 12
           (column (loaded twelve_tickers_csv) "Ticker")).
  - discriminate.
  - decide_run.
  - apply column_lookup. decide_run.
  - vm_compute. repeat (constructor; [by eexists|]). constructor.
  - decide_run.
  - decide_run.
  - apply drawn_Ok. vm_compute; reflexivity.
Defined.

(** ** The names of the tickers *)

Lemma ticker_dicts t :
  (t = "^NYA" ∧ ticker_name_mapping !! t = Some "New York Stock Exchange"
     ∧ legend_label t = "NYSE") ∨
  (t ≠ "^NYA" ∧ ∃ name, ticker_name_mapping !! t = Some name
     ∧ legend_label t = name) ∨
  (t ≠ "^NYA" ∧ ticker_name_mapping !! t = None ∧ legend_label t = t).
Proof.
  unfold legend_label, ticker_names, ticker_name_mapping. cbn [list_to_map foldr].
  destruct (decide (t = "^NYA")) as [->|H1];
    [left; split_and!; [done | by rewrite lookup_insert_eq
                              | by rewrite lookup_insert_eq]|].
  right. rewrite !(lookup_insert_ne _ "^NYA" t) by done.
  destruct (decide (t = "^IXIC")) as [->|H2];
    [left; split; [done|]; eexists; by rewrite !lookup_insert_eq|].
  rewrite !(lookup_insert_ne _ "^IXIC" t) by done.
  destruct (decide (t = "^DJI")) as [->|H3];
    [left; split; [done|]; eexists; by rewrite !lookup_insert_eq|].
  rewrite !(lookup_insert_ne _ "^DJI" t) by done.
  destruct (decide (t = "^GSPC")) as [->|H4];
    [left; split; [done|]; eexists; by rewrite !lookup_insert_eq|].
  rewrite !(lookup_insert_ne _ "^GSPC" t) by done.
  right. by rewrite !lookup_empty.
Qed.

(** X17: the legend of the Bokeh chart and the Ticker_Name column name a
    ticker alike, with two exceptions: ^NYA is New York Stock Exchange in
    the column and NYSE in the legend, and a ticker that has no name is NaN
    in the column and itself in the legend. *)
Theorem legend_and_ticker_name parse csv out i t :
  load_data parse csv = Ok out →
  cell_at csv "Ticker" i = Some (Str t) →
  (t = "^NYA" ∧ legend_label t = "NYSE" ∧
   cell_at out "Ticker_Name" i = Some (Str "New York Stock Exchange")) ∨
  (t ≠ "^NYA" ∧ cell_at out "Ticker_Name" i = Some (Str (legend_label t))) ∨
  (t ≠ "^NYA" ∧ legend_label t = t ∧
   cell_at out "Ticker_Name" i = Some (Num NaN)).
Proof.
  intros H Ht. rewrite (ticker_name_column _ _ _ _ _ H Ht).
  destruct (ticker_dicts t) as [(-> & -> & Hl)|[(Hne & name & -> & Hl)|(Hne & -> & Hl)]].
  - by left.
  - right; left. by rewrite Hl.
  - right; right. done.
Qed.

Lemma legend_and_ticker_name_witness :
  ∃ out, load_data iso_datetime unknown_ticker_csv = Ok out ∧
    (("XYZ" = "^NYA" ∧ legend_label "XYZ" = "NYSE" ∧
      cell_at out "Ticker_Name" 1 = Some (Str "New York Stock Exchange")) ∨
     ("XYZ" ≠ "^NYA" ∧
      cell_at out "Ticker_Name" 1 = Some (Str (legend_label "XYZ"))) ∨
     ("XYZ" ≠ "^NYA" ∧ legend_label "XYZ" = "XYZ" ∧
      cell_at out "Ticker_Name" 1 = Some (Num NaN))).
Proof.
  run_load out E.
  apply (legend_and_ticker_name iso_datetime unknown_ticker_csv out 1 "XYZ" E).
  vm_compute; reflexivity.
Defined.

(** ** The order of the months *)

(** X18: the month names the Altair chart sorts by are the twelve names of
    the
    calendar, and the Month_Name of a row of month [m] is the name at the
    place [m - 1] of this order. *)
Theorem months_order_position parse csv out i c y m d :
  load_data parse csv = Ok out →
  cell_at csv "Date" i = Some c →
  parse c = Some (Timestamp y m d) →
  1 ≤ m ≤ 12 →
  ∃ names s, months_order = Ok names ∧ length names = 12%nat ∧ NoDup names ∧
    cell_at out "Month_Name" i = Some (Str s) ∧
    names !! (Z.to_nat m - 1)%nat = Some s.
Proof.
  intros H Hc Hp Hm. apply load_data_Ok in H as (dv & Hd & ->).
  destruct (assemble_derived csv dv)
    as (_ & _ & _ & _ & _ & _ & _ & _ & Ename & _).
  destruct Hd as (date & adj & opn & close & ticker & diff & ratio & Hd).
  destruct Hd as (Hdate & Hparse & _ & _ & _ & _ & _ & _ & _ & _ & _ & _ & _
                    & _ & Hmonth & Hnames & _).
  unfold cell_at in *. rewrite Hdate in Hc; simpl in Hc. rewrite Ename; simpl.
  destruct (traverse_lookup _ _ _ _ _ Hparse Hc) as (t & Ht & Hi1).
  rewrite Hp in Ht. injection Ht as <-.
  destruct (traverse_lookup _ _ _ _ _ Hmonth Hi1) as (mc & Hmc & Hi3).
  simpl in Hmc. injection Hmc as <-.
  destruct (traverse_lookup _ _ _ _ _ Hnames Hi3) as (nc & Hnc & Hi4).
  unfold month_name_of in Hnc. bind_inv Hnc. injection Hnc as <-.
  destruct (month_name_lookup m x Hm E) as [Hx _].
  exists (tail month_name), x. split_and!.
  - vm_compute; reflexivity.
  - done.
  - apply (bool_decide_unpack _). vm_compute. exact I.
  - done.
  - rewrite <- Hx. rewrite lookup_tail. f_equal. lia.
Qed.

Lemma months_order_position_witness :
  ∃ out, load_data iso_datetime interleaved_csv = Ok out ∧
    ∃ names s, months_order = Ok names ∧ length names = 12%nat ∧ NoDup names ∧
      cell_at out "Month_Name" 4 = Some (Str s) ∧
      names !! (Z.to_nat 1 - 1)%nat = Some s.
Proof.
  run_load out E.
  apply (months_order_position iso_datetime interleaved_csv out 4
           (Str "2020-01-06") 2020 1 6 E).
  - vm_compute; reflexivity.
  - vm_compute; reflexivity.
  - lia.
Defined.
